(** * Event-orchestration core of the realtime voice/text agent

    Shallow embedding of [samples/langchain_openai_voice/__init__.py]:
    the tool-call executor ([VoiceToolExecutor]), the routing performed by
    [OpenAIVoiceReactAgent.aconnect] over the merged stream, and the stream
    merger [amerge] the orchestrator imports.

    Python values are JSON trees, exceptions are an explicit result type,
    and the mutable executor, the set of running tool tasks and the
    observable effects (backend sends, sink writes, prints, sleeps) are
    threaded through a small state-and-exception monad. *)

From Stdlib Require Import String Ascii List ZArith Bool Lia PeanoNat DecimalString.
From Stdlib Require Import Floats.PrimFloat.
Import ListNotations.

Local Open Scope string_scope.
Local Open Scope list_scope.

#[local] Set Warnings "-register-all".

(** ** Python values *)

(** What [json.loads] yields, and what the dict literals of the source
    build.  A JSON object is kept as an association list in key order; a
    key is looked up at its first binding. *)
Inductive json : Type :=
| JNull
| JBool (b : bool)
| JInt (z : Z)
| JFloat (f : PrimFloat.float)
| JStr (s : string)
| JArr (items : list json)
| JObj (fields : list (string * json)).

(** The exception classes the source raises, catches or lets through.
    [JSONDecodeError] is a subclass of [ValueError]; [ToolFailure] stands
    for any other class a tool may raise. *)
Inductive exn : Type :=
| KeyError (key : string)
| TypeError
| AttributeError
| ValueError (msg : string)
| JSONDecodeError
| ToolFailure (what : string).

Inductive outcome (A : Type) : Type :=
| Ok (a : A)
| Raise (e : exn).
Arguments Ok {A} a.
Arguments Raise {A} e.

(** [isinstance(e, ValueError)], the test of [except ValueError]. *)
Definition is_ValueError (e : exn) : bool :=
  match e with
  | ValueError _ | JSONDecodeError => true
  | _ => false
  end.

(** [str(e)] where the source takes it: on the [ValueError]s that
    [_create_tool_call_task] builds from a message. *)
Definition exn_str (e : exn) : string :=
  match e with
  | ValueError msg => msg
  | _ => ""
  end.

Fixpoint assoc {A : Type} (k : string) (l : list (string * A)) : option A :=
  match l with
  | [] => None
  | (k', v) :: rest => if String.eqb k k' then Some v else assoc k rest
  end.

(** [d[k]]: subscripting with a string key.  Only a dict accepts it; a
    missing key is a [KeyError], any other value a [TypeError]. *)
Definition getitem (d : json) (k : string) : outcome json :=
  match d with
  | JObj fs =>
      match assoc k fs with
      | Some v => Ok v
      | None => Raise (KeyError k)
      end
  | _ => Raise TypeError
  end.

(** [d.get(k, default)]: only a dict has the method. *)
Definition dict_get (d : json) (k : string) (default : json) : outcome json :=
  match d with
  | JObj fs =>
      match assoc k fs with
      | Some v => Ok v
      | None => Ok default
      end
  | _ => Raise AttributeError
  end.

(** [t == "literal"]: a value equals a string only if it is that string. *)
Definition eq_str (t : json) (s : string) : bool :=
  match t with
  | JStr s' => String.eqb s' s
  | _ => false
  end.

(** Truth value of a Python object in [if v:]. *)
Definition truthy (v : json) : bool :=
  match v with
  | JNull => false
  | JBool b => b
  | JInt z => negb (Z.eqb z 0)
  | JFloat f => negb (PrimFloat.eqb f PrimFloat.zero)
  | JStr s => negb (String.eqb s "")
  | JArr l => match l with [] => false | _ => true end
  | JObj l => match l with [] => false | _ => true end
  end.

(** Lists and dicts are unhashable: using one as a dict key or testing it
    for membership in a set raises [TypeError]. *)
Definition hashable (v : json) : bool :=
  match v with
  | JArr _ | JObj _ => false
  | _ => true
  end.

Definition is_dict (v : json) : bool :=
  match v with JObj _ => true | _ => false end.

(** ** The Python runtime the module relies on

    [json.loads] ([None] is [json.JSONDecodeError]), [json.dumps] on a
    JSON tree, and the text an f-string gives a value and a list of keys.
    They belong to the interpreter, not to the repository, so the
    development is parametric in them. *)
Class PyRuntime : Type := {
  json_loads : string -> option json;
  json_dumps : json -> string;
  py_str : json -> string;
  py_str_keys : list string -> string
}.

(** ** Tools *)

(** What a tool hands back, as [json.dumps] sees it: a
    JSON-representable value; an object [json.dumps] rejects with
    [TypeError], known by its [str()]; or a value on which [json.dumps]
    raises another exception, [ValueError] for a circular reference, also
    with its [str()]. *)
Inductive pyobj : Type :=
| PJson (j : json)
| PObject (text : string)
| PUndumpable (e : exn) (text : string).

Inductive tool_outcome : Type :=
| Returns (result : pyobj)
| Fails (e : exn).

(** The part of [BaseTool] the module uses. *)
Record BaseTool : Type := {
  name : string;
  description : string;
  args : json;
  ainvoke : json -> tool_outcome
}.

(** A task created around the closure [run_tool]: the call, the resolved
    tool and the decoded arguments it captured. *)
Record tool_task : Type := {
  task_call : json;
  task_tool : BaseTool;
  task_args : json
}.

(** ** State, effects and the monad *)

Inductive effect : Type :=
| ModelSend (event : json)
| SinkSend (chunk : json)
| Sleep (ms : nat)
| Print (label : string) (v : json).

(** [_trigger_future] is [None] while the future is pending and
    [Some call] once [set_result(call)] has been called on it.  [_lock]
    guards bodies that never suspend, so it is never contended and has no
    state of its own here. *)
Record VoiceToolExecutor : Type := {
  tools_by_name : list (string * BaseTool);
  _trigger_future : option json
}.

(** [tasks] is the local set of [output_iterator] without its trigger
    task; [outbox] is what [output_iterator] has produced (an item, or the
    exception that ended it) and the merged loop has not consumed yet:
    the generator stays suspended while it is occupied. *)
Record world : Type := {
  executor : VoiceToolExecutor;
  tasks : list tool_task;
  outbox : option (outcome json);
  trace : list effect
}.

Definition M (A : Type) : Type := world -> outcome A * world.

Definition ret {A : Type} (a : A) : M A := fun w => (Ok a, w).

Definition raise {A : Type} (e : exn) : M A := fun w => (Raise e, w).

Definition bind {A B : Type} (c : M A) (k : A -> M B) : M B :=
  fun w =>
    match c w with
    | (Ok a, w') => k a w'
    | (Raise e, w') => (Raise e, w')
    end.

Notation "x <- c ;; k" := (bind c (fun x => k))
  (at level 61, c at next level, right associativity).
Notation "c ;;; k" := (bind c (fun _ => k))
  (at level 61, right associativity).

Definition lift {A : Type} (o : outcome A) : M A := fun w => (o, w).

(** [try: c  except <class>: handler], the class given by [catches]. *)
Definition try_except {A : Type} (c : M A) (catches : exn -> bool)
    (handler : exn -> M A) : M A :=
  fun w =>
    match c w with
    | (Ok a, w') => (Ok a, w')
    | (Raise e, w') => if catches e then handler e w' else (Raise e, w')
    end.

Definition emit (x : effect) : M unit :=
  fun w => (Ok tt, {| executor := executor w; tasks := tasks w;
                      outbox := outbox w; trace := trace w ++ [x] |}).

Definition model_send (event : json) : M unit := emit (ModelSend event).
Definition send_output_chunk (chunk : json) : M unit := emit (SinkSend chunk).
Definition print (label : string) (v : json) : M unit := emit (Print label v).
Definition sleep (ms : nat) : M unit := emit (Sleep ms).

Definition set_future (f : option json) : M unit :=
  fun w => (Ok tt, {| executor := {| tools_by_name := tools_by_name (executor w);
                                     _trigger_future := f |};
                      tasks := tasks w; outbox := outbox w; trace := trace w |}).

Definition set_tasks (ts : list tool_task) : M unit :=
  fun w => (Ok tt, {| executor := executor w; tasks := ts;
                      outbox := outbox w; trace := trace w |}).

Definition set_outbox (o : option (outcome json)) : M unit :=
  fun w => (Ok tt, {| executor := executor w; tasks := tasks w;
                      outbox := o; trace := trace w |}).

Definition get_world : M world := fun w => (Ok w, w).

Definition remove_nth {A : Type} (i : nat) (l : list A) : list A :=
  firstn i l ++ skipn (S i) l.

Section Agent.

Context {rt : PyRuntime}.

(** ** [VoiceToolExecutor] *)

(** [json.loads(v)]: only text is decoded; any other value is a
    [TypeError]. *)
Definition loads_value (v : json) : outcome json :=
  match v with
  | JStr s =>
      match json_loads s with
      | Some d => Ok d
      | None => Raise JSONDecodeError
      end
  | _ => Raise TypeError
  end.

Definition is_JSONDecodeError (e : exn) : bool :=
  match e with JSONDecodeError => true | _ => false end.

(** [tools_by_name.get(key)]: the keys are strings, so no other hashable
    value is found; an unhashable key raises. *)
Definition tools_get (tools : list (string * BaseTool)) (key : json)
    : outcome (option BaseTool) :=
  match key with
  | JStr n => Ok (assoc n tools)
  | JArr _ | JObj _ => Raise TypeError
  | _ => Ok None
  end.

(** The dict literal both [run_tool] and the error branch of
    [output_iterator] build; it reads [tool_call["call_id"]] twice. *)
Definition function_call_output (tool_call : json) (output : string)
    : outcome json :=
  match getitem tool_call "call_id" with
  | Raise e => Raise e
  | Ok id1 =>
      match getitem tool_call "call_id" with
      | Raise e => Raise e
      | Ok id2 =>
          Ok (JObj [("type", JStr "conversation.item.create");
                    ("item", JObj [("id", id1);
                                   ("call_id", id2);
                                   ("type", JStr "function_call_output");
                                   ("output", JStr output)])])
      end
  end.

Definition add_tool_call (tool_call : json) : M unit :=
  w <- get_world ;;
  match _trigger_future (executor w) with
  | Some _ => raise (ValueError "Tool call adding already in progress")
  | None => set_future (Some tool_call)
  end.

Definition _create_tool_call_task (tool_call : json) : M tool_task :=
  w <- get_world ;;
  key <- lift (getitem tool_call "name") ;;
  tool <- lift (tools_get (tools_by_name (executor w)) key) ;;
  match tool with
  | None =>
      n <- lift (getitem tool_call "name") ;;
      raise (ValueError ("tool " ++ py_str n ++ " not found. "
                         ++ "Must be one of "
                         ++ py_str_keys (map fst (tools_by_name (executor w)))))
  | Some tool =>
      a <- try_except
             (raw <- lift (getitem tool_call "arguments") ;;
              lift (loads_value raw))
             is_JSONDecodeError
             (fun _ =>
                raw <- lift (getitem tool_call "arguments") ;;
                raise (ValueError ("failed to parse arguments `" ++ py_str raw
                                   ++ "`. Must be valid JSON."))) ;;
      ret {| task_call := tool_call; task_tool := tool; task_args := a |}
  end.

(** [json.dumps(result)]: it rejects with [TypeError] what is not
    JSON-representable, and raises otherwise on a value it cannot walk. *)
Definition dumps_result (result : pyobj) : outcome string :=
  match result with
  | PJson j => Ok (json_dumps j)
  | PObject _ => Raise TypeError
  | PUndumpable e _ => Raise e
  end.

Definition str_result (result : pyobj) : string :=
  match result with
  | PJson j => py_str j
  | PObject text => text
  | PUndumpable _ text => text
  end.

(** [isinstance(e, TypeError)], the test of [except TypeError]. *)
Definition is_TypeError (e : exn) : bool :=
  match e with TypeError => true | _ => false end.

(** The closure [run_tool] of a task, run to its end: what
    [task.result()] returns or re-raises. *)
Definition run_tool (t : tool_task) : outcome json :=
  match ainvoke (task_tool t) (task_args t) with
  | Fails e => Raise e
  | Returns result =>
      match dumps_result result with
      | Ok result_str => function_call_output (task_call t) result_str
      | Raise e =>
          if is_TypeError e
          then function_call_output (task_call t) (str_result result)
          else Raise e
      end
  end.

(** Which of the awaited tasks [asyncio.wait] reported and the [for] loop
    of [output_iterator] is processing. *)
Inductive completed : Type :=
| TriggerTask
| ToolTask (i : nat).

(** One pass of the body of [for task in done] for the trigger task: the
    future is replaced first, then the call is turned into a task or into
    an error item. *)
Definition on_trigger (tool_call : json) : M (option json) :=
  set_future None ;;;
  try_except
    (new_task <- _create_tool_call_task tool_call ;;
     w <- get_world ;;
     set_tasks (tasks w ++ [new_task]) ;;;
     ret None)
    is_ValueError
    (fun e =>
       ev <- lift (function_call_output tool_call ("Error: " ++ exn_str e)) ;;
       ret (Some ev)).

(** One pass of the body of [for task in done]; the result is what the
    generator yields in that pass, if anything.  A task that has not
    completed is not in [done]: nothing happens. *)
Definition output_iterator_step (c : completed) : M (option json) :=
  w <- get_world ;;
  match c with
  | TriggerTask =>
      match _trigger_future (executor w) with
      | Some tool_call => on_trigger tool_call
      | None => ret None
      end
  | ToolTask i =>
      match nth_error (tasks w) i with
      | Some t =>
          set_tasks (remove_nth i (tasks w)) ;;;
          r <- lift (run_tool t) ;;
          ret (Some r)
      | None => ret None
      end
  end.

(** [output_iterator] as the merger drives it: it runs only while its
    previous item has been taken, and what it yields, or the exception
    that leaves it, waits in [outbox]. *)
Definition output_iterator (c : completed) : M unit :=
  fun w =>
    match outbox w with
    | Some _ => (Ok tt, w)
    | None =>
        match output_iterator_step c w with
        | (Ok None, w') => (Ok tt, w')
        | (Ok (Some ev), w') => set_outbox (Some (Ok ev)) w'
        | (Raise e, w') => set_outbox (Some (Raise e)) w'
        end
    end.

(** ** [OpenAIVoiceReactAgent.aconnect] *)

Definition EVENTS_TO_IGNORE : list string :=
  [ "response.function_call_arguments.delta";
    "rate_limits.updated";
    "response.audio_transcript.delta";
    "response.created";
    "response.content_part.added";
    "response.content_part.done";
    "conversation.item.created";
    "response.audio.done";
    "session.created";
    "session.updated";
    "response.done";
    "response.output_item.done" ].

(** [t in EVENTS_TO_IGNORE]: membership in a set hashes [t] first. *)
Definition in_set (t : json) (l : list string) : outcome bool :=
  match t with
  | JStr s => Ok (existsb (String.eqb s) l)
  | JArr _ | JObj _ => Raise TypeError
  | _ => Ok false
  end.

Record OpenAIVoiceReactAgent : Type := {
  model : string;
  instructions : option string;
  tools : option (list BaseTool);
  url : string
}.

(** The item a raw text input is wrapped in. *)
Definition text_input_item (data_raw : json) : json :=
  JObj [("type", JStr "conversation.item.create");
        ("item", JObj [("id", JStr "text_input");
                       ("type", JStr "message");
                       ("role", JStr "user");
                       ("content",
                        JArr [JObj [("type", JStr "input_text");
                                    ("text", data_raw)]])])].

Definition text_response_create : json :=
  JObj [("type", JStr "response.create");
        ("response", JObj [("modalities", JArr [JStr "text"]);
                           ("instructions", JStr "Please respond concisely.")])].

Definition tool_response_create : json :=
  JObj [("type", JStr "response.create"); ("response", JObj [])].

(** The [try]/[except json.JSONDecodeError] at the head of the loop body:
    the decoded data and the stream key the rest of the body sees. *)
Definition decode_item (stream_key : string) (data_raw : json)
    : M (string * json) :=
  try_except
    (match data_raw with
     | JStr _ => d <- lift (loads_value data_raw) ;; ret (stream_key, d)
     | _ => ret (stream_key, data_raw)
     end)
    is_JSONDecodeError
    (fun _ =>
       print "Received raw text input:" data_raw ;;;
       ret ("text", text_input_item data_raw)).

Definition on_input_mic (data : json) : M unit :=
  t <- lift (getitem data "type") ;;
  (if eq_str t "conversation.item.create"
   then print "conversation item create: " data
   else ret tt) ;;;
  model_send data.

Definition on_text (data : json) : M unit :=
  print "Received text input => sending to model:" data ;;;
  model_send data ;;;
  sleep 100 ;;;
  print "Sending response.create for text input:" text_response_create ;;;
  model_send text_response_create.

Definition on_tool_outputs (data : json) : M unit :=
  print "tool output:" data ;;;
  model_send data ;;;
  model_send tool_response_create ;;;
  t <- lift (getitem data "type") ;;
  if eq_str t "conversation.item.create" then
    item <- lift (getitem data "item") ;;
    output_str <- lift (dict_get item "output" (JStr "")) ;;
    try_except
      (output_json <- lift (loads_value output_str) ;;
       if is_dict output_json then
         return_direct <- lift (dict_get output_json "return_direct" (JBool false)) ;;
         if truthy return_direct then send_output_chunk output_str else ret tt
       else ret tt)
      (fun _ => true)
      (fun _ => ret tt)
  else ret tt.

Definition on_output_speaker (data : json) : M unit :=
  t <- lift (getitem data "type") ;;
  if eq_str t "response.audio.delta" then
    send_output_chunk (JStr (json_dumps data))
  else if eq_str t "response.audio_buffer.speech_started" then
    send_output_chunk (JStr (json_dumps data))
  else if eq_str t "error" then
    print "error:" data
  else if eq_str t "response.function_call_arguments.done" then
    print "function_call:" data ;;;
    add_tool_call data
  else if eq_str t "response.audio_transcript.done" then
    tr <- lift (getitem data "transcript") ;;
    print "model(audio transcript):" tr
  else if eq_str t "conversation.item.input_audio_transcription.completed" then
    tr <- lift (getitem data "transcript") ;;
    print "user(audio):" tr
  else if eq_str t "response.text.done" then
    print "response.text.done:" data ;;;
    response_text <- lift (dict_get data "text" (JStr "")) ;;
    send_output_chunk response_text
  else
    ignored <- lift (in_set t EVENTS_TO_IGNORE) ;;
    if ignored then ret tt
    else if eq_str t "input_audio_buffer.speech_started" then
      print "input_audio_buffer.speech_started" (JStr "クライアント側で音声を中断などの処理を考慮可能")
    else
      print "Unhandled event type:" t.

(** The body of [async for stream_key, data_raw in amerge(...)]. *)
Definition loop_body (stream_key : string) (data_raw : json) : M unit :=
  kd <- decode_item stream_key data_raw ;;
  let (stream_key, data) := kd in
  if String.eqb stream_key "input_mic" then on_input_mic data
  else if String.eqb stream_key "text" then on_text data
  else if String.eqb stream_key "tool_outputs" then on_tool_outputs data
  else if String.eqb stream_key "output_speaker" then on_output_speaker data
  else ret tt.

(** What happens next in the session: one of the three merged sources
    delivers its next item to the loop, or [output_iterator] processes a
    completed task. *)
Inductive occurrence : Type :=
| InputItem (s : string)
| BackendEvent (data : json)
| ToolOutput
| ExecutorRuns (c : completed).

Definition occur (o : occurrence) : M unit :=
  match o with
  | InputItem s => loop_body "input_mic" (JStr s)
  | BackendEvent d => loop_body "output_speaker" d
  | ToolOutput =>
      w <- get_world ;;
      match outbox w with
      | None => ret tt
      | Some r =>
          set_outbox None ;;;
          item <- lift r ;;
          loop_body "tool_outputs" item
      end
  | ExecutorRuns c => output_iterator c
  end.

(** The merged loop over a schedule; an exception leaves it at once. *)
Fixpoint merged_loop (schedule : list occurrence) : M unit :=
  match schedule with
  | [] => ret tt
  | o :: rest => occur o ;;; merged_loop rest
  end.

(** [dict[k] = v] on an association list. *)
Fixpoint dict_set {A : Type} (k : string) (v : A) (l : list (string * A))
    : list (string * A) :=
  match l with
  | [] => [(k, v)]
  | (k', v') :: rest =>
      if String.eqb k k' then (k, v) :: rest else (k', v') :: dict_set k v rest
  end.

Definition tools_dict (ts : option (list BaseTool)) : list (string * BaseTool) :=
  fold_left (fun d tool => dict_set (name tool) tool d)
            (match ts with Some l => l | None => [] end) [].

Definition tool_def (tool : BaseTool) : json :=
  JObj [("type", JStr "function");
        ("name", JStr (name tool));
        ("description", JStr (description tool));
        ("parameters", JObj [("type", JStr "object");
                             ("properties", args tool)])].

Definition session_update (agent : OpenAIVoiceReactAgent) : json :=
  JObj [("type", JStr "session.update");
        ("session",
         JObj [("instructions",
                match instructions agent with Some s => JStr s | None => JNull end);
               ("input_audio_transcription", JObj [("model", JStr "whisper-1")]);
               ("tools", JArr (map (fun kv => tool_def (snd kv))
                                   (tools_dict (tools agent))))])].

Definition initial_world (agent : OpenAIVoiceReactAgent) : world :=
  {| executor := {| tools_by_name := tools_dict (tools agent);
                    _trigger_future := None |};
     tasks := [];
     outbox := None;
     trace := [] |}.

Definition aconnect (agent : OpenAIVoiceReactAgent) (schedule : list occurrence)
    : outcome unit * world :=
  (model_send (session_update agent) ;;; merged_loop schedule)
    (initial_world agent).

End Agent.

(** ** A small runtime to run the model on concrete inputs

    A decoder and an encoder for the fragment of JSON the examples use:
    [null], [true], [false], integers, strings with the common escapes,
    arrays and objects.  Numbers with a fraction or an exponent are outside
    the fragment.  The theorems below hold for every [PyRuntime]; this
    instance only serves to evaluate the model. *)
Module MiniJson.

Local Open Scope char_scope.

Definition dquote : ascii := "034".
Definition backslash : ascii := "092".

Definition is_ws (c : ascii) : bool :=
  Ascii.eqb c " " || Ascii.eqb c "009" || Ascii.eqb c "010" || Ascii.eqb c "013".

Fixpoint skip_ws (cs : list ascii) : list ascii :=
  match cs with
  | c :: rest => if is_ws c then skip_ws rest else cs
  | [] => []
  end.

Definition digit_of (c : ascii) : option Z :=
  let n := nat_of_ascii c in
  if (48 <=? n)%nat && (n <=? 57)%nat then Some (Z.of_nat (n - 48)) else None.

Fixpoint digits (cs : list ascii) (acc : Z) : Z * list ascii :=
  match cs with
  | c :: rest =>
      match digit_of c with
      | Some d => digits rest (10 * acc + d)%Z
      | None => (acc, cs)
      end
  | [] => (acc, [])
  end.

(** An integer literal: no leading zero before another digit, and no
    fraction or exponent after it. *)
Definition natural (cs : list ascii) : option (Z * list ascii) :=
  match cs with
  | c :: rest =>
      match digit_of c with
      | None => None
      | Some d =>
          let (z, r) := if (d =? 0)%Z then (0%Z, rest) else digits rest d in
          match r with
          | c' :: _ =>
              if Ascii.eqb c' "." || Ascii.eqb c' "e" || Ascii.eqb c' "E"
                 || match digit_of c' with Some _ => true | None => false end
              then None else Some (z, r)
          | [] => Some (z, r)
          end
      end
  | [] => None
  end.

Fixpoint chars (cs : list ascii) (acc : list ascii)
    : option (string * list ascii) :=
  match cs with
  | [] => None
  | c :: rest =>
      if Ascii.eqb c dquote then Some (string_of_list_ascii (rev acc), rest)
      else if Ascii.eqb c backslash then
        match rest with
        | e :: rest' =>
            if Ascii.eqb e dquote then chars rest' (dquote :: acc)
            else if Ascii.eqb e backslash then chars rest' (backslash :: acc)
            else if Ascii.eqb e "/" then chars rest' ("/" :: acc)
            else if Ascii.eqb e "n" then chars rest' ("010" :: acc)
            else if Ascii.eqb e "t" then chars rest' ("009" :: acc)
            else if Ascii.eqb e "r" then chars rest' ("013" :: acc)
            else None
        | [] => None
        end
      else if (nat_of_ascii c <? 32)%nat then None
      else chars rest (c :: acc)
  end.

Fixpoint strip (word cs : list ascii) : option (list ascii) :=
  match word, cs with
  | [], _ => Some cs
  | w :: word', c :: cs' => if Ascii.eqb w c then strip word' cs' else None
  | _ :: _, [] => None
  end.

(** A Python dict keeps the last value of a repeated key, at the place
    of its first occurrence. *)
Fixpoint as_dict (fields acc : list (string * json)) : list (string * json) :=
  match fields with
  | [] => acc
  | (k, v) :: rest => as_dict rest (dict_set k v acc)
  end.

Fixpoint value (fuel : nat) (cs : list ascii) {struct fuel}
    : option (json * list ascii) :=
  match fuel with
  | O => None
  | S fuel' =>
      match skip_ws cs with
      | [] => None
      | c :: rest =>
          if Ascii.eqb c dquote then
            match chars rest [] with
            | Some (s, r) => Some (JStr s, r)
            | None => None
            end
          else if Ascii.eqb c "[" then
            match skip_ws rest with
            | c' :: r' =>
                if Ascii.eqb c' "]" then Some (JArr [], r')
                else elements fuel' rest []
            | [] => None
            end
          else if Ascii.eqb c "{" then
            match skip_ws rest with
            | c' :: r' =>
                if Ascii.eqb c' "}" then Some (JObj [], r')
                else members fuel' rest []
            | [] => None
            end
          else if Ascii.eqb c "-" then
            match natural rest with
            | Some (z, r) => Some (JInt (- z), r)
            | None => None
            end
          else
            match strip (list_ascii_of_string "null") (c :: rest),
                  strip (list_ascii_of_string "true") (c :: rest),
                  strip (list_ascii_of_string "false") (c :: rest) with
            | Some r, _, _ => Some (JNull, r)
            | _, Some r, _ => Some (JBool true, r)
            | _, _, Some r => Some (JBool false, r)
            | _, _, _ =>
                match natural (c :: rest) with
                | Some (z, r) => Some (JInt z, r)
                | None => None
                end
            end
      end
  end

with elements (fuel : nat) (cs : list ascii) (acc : list json) {struct fuel}
    : option (json * list ascii) :=
  match fuel with
  | O => None
  | S fuel' =>
      match value fuel' cs with
      | None => None
      | Some (v, r) =>
          match skip_ws r with
          | c :: r' =>
              if Ascii.eqb c "," then elements fuel' r' (v :: acc)
              else if Ascii.eqb c "]" then Some (JArr (rev (v :: acc)), r')
              else None
          | [] => None
          end
      end
  end

with members (fuel : nat) (cs : list ascii) (acc : list (string * json))
    {struct fuel} : option (json * list ascii) :=
  match fuel with
  | O => None
  | S fuel' =>
      match skip_ws cs with
      | q :: r0 =>
          if Ascii.eqb q dquote then
            match chars r0 [] with
            | None => None
            | Some (k, r1) =>
                match skip_ws r1 with
                | colon :: r2 =>
                    if Ascii.eqb colon ":" then
                      match value fuel' r2 with
                      | None => None
                      | Some (v, r3) =>
                          match skip_ws r3 with
                          | c :: r4 =>
                              if Ascii.eqb c "," then members fuel' r4 ((k, v) :: acc)
                              else if Ascii.eqb c "}" then
                                Some (JObj (as_dict (rev ((k, v) :: acc)) []), r4)
                              else None
                          | [] => None
                          end
                      end
                    else None
                | [] => None
                end
            end
          else None
      | [] => None
      end
  end.

Definition loads (s : string) : option json :=
  let cs := list_ascii_of_string s in
  match value (2 * List.length cs + 2) cs with
  | Some (v, r) =>
      match skip_ws r with
      | [] => Some v
      | _ :: _ => None
      end
  | None => None
  end.

Local Close Scope char_scope.

Definition decimal (z : Z) : string := NilZero.string_of_int (Z.to_int z).

Fixpoint escape (cs : list ascii) : list ascii :=
  match cs with
  | [] => []
  | c :: rest =>
      if Ascii.eqb c dquote then backslash :: dquote :: escape rest
      else if Ascii.eqb c backslash then backslash :: backslash :: escape rest
      else if Ascii.eqb c "010" then backslash :: "n"%char :: escape rest
      else c :: escape rest
  end.

Definition quoted (s : string) : string :=
  String dquote (string_of_list_ascii (escape (list_ascii_of_string s)))
    ++ String dquote "".

Definition join (sep : string) (l : list string) : string :=
  match l with
  | [] => ""
  | x :: rest => fold_left (fun acc y => (acc ++ sep ++ y)%string) rest x
  end.

(** [json.dumps] with its default separators, on the fragment: a float
    is printed as a placeholder, and characters outside ASCII and control
    characters other than the newline are left as they are, where
    [json.dumps] escapes them. *)
Fixpoint dumps (j : json) : string :=
  match j with
  | JNull => "null"
  | JBool true => "true"
  | JBool false => "false"
  | JInt z => decimal z
  | JFloat _ => "<float>"
  | JStr s => quoted s
  | JArr items => "[" ++ join ", " (map dumps items) ++ "]"
  | JObj fields =>
      "{" ++ join ", " (map (fun kv => (quoted (fst kv) ++ ": " ++ dumps (snd kv))%string)
                            fields) ++ "}"
  end.

(** [str(v)] as an f-string inserts it: text as it is, the constants
    under their Python names, integers in decimal; a list or a dict is
    printed as [dumps] prints it, where Python prints its [repr]. *)
Definition str (j : json) : string :=
  match j with
  | JStr s => s
  | JNull => "None"
  | JBool true => "True"
  | JBool false => "False"
  | _ => dumps j
  end.

(** [str] of a list of keys: each in single quotes. *)
Definition str_keys (keys : list string) : string :=
  "[" ++ join ", " (map (fun k => ("'" ++ k ++ "'")%string) keys) ++ "]".

Definition runtime : PyRuntime :=
  {| json_loads := loads; json_dumps := dumps;
     py_str := str; py_str_keys := str_keys |}.

(** [q s] is [s] between double quotes, to write JSON text. *)
Definition q (s : string) : string := String dquote s ++ String dquote "".

End MiniJson.

(** ** The stream merger *)

Module StreamMerger.

Section Merge.

Variable A : Type.

(** Modelled from the spec: the asynchronous sources [amerge] reads,
    each lazy and potentially infinite: one that ends after finitely many
    items, or one that never ends. *)
Inductive source : Type :=
| Finite (items : list A)
| Endless (item : nat -> A).

(** [anext(stream)]: the next item and the source after it, or [None]
    for [StopAsyncIteration]. *)
Definition next_item (s : source) : option (A * source) :=
  match s with
  | Finite [] => None
  | Finite (x :: rest) => Some (x, Finite rest)
  | Endless f => Some (f 0, Endless (fun n => f (S n)))
  end.

(** The first [n] items a source produces. *)
Fixpoint take_items (n : nat) (s : source) : list A :=
  match n with
  | O => []
  | S n' =>
      match next_item s with
      | Some (x, s') => x :: take_items n' s'
      | None => []
      end
  end.

Definition is_finite (s : source) : bool :=
  match s with Finite _ => true | Endless _ => false end.

Definition replace_nth {B : Type} (i : nat) (b : B) (l : list B) : list B :=
  firstn i l ++ b :: skipn (S i) l.

(** Modelled from the spec: [amerge], which the module imports from
    [langchain_openai_voice.utils], a file that is not among the sources.
    The wait set holds one pending next-item task per live source, under
    its origin tag.  Whichever task resolves first (the scheduler's choice,
    any number standing for a position in the wait set) is yielded with
    its tag and replaced by a new pending task for the same source; a
    source found exhausted is dropped from the wait set.  The merge ends
    when the wait set is empty.  The result is the sequence yielded under
    the given choices and the wait set they leave. *)
Fixpoint amerge (choices : list nat) (live : list (string * source))
    : list (string * A) * list (string * source) :=
  match choices with
  | [] => ([], live)
  | c :: rest =>
      match live with
      | [] => ([], [])
      | _ :: _ =>
          let k := c mod List.length live in
          match nth_error live k with
          | None => ([], live)
          | Some (tag, s) =>
              match next_item s with
              | Some (x, s') =>
                  let (out, final) := amerge rest (replace_nth k (tag, s') live) in
                  ((tag, x) :: out, final)
              | None => amerge rest (remove_nth k live)
              end
          end
      end
  end.

(** The items of one origin, in the order the merge yielded them. *)
Fixpoint from_origin (tag : string) (out : list (string * A)) : list A :=
  match out with
  | [] => []
  | (t, x) :: rest =>
      if String.eqb t tag then x :: from_origin tag rest
      else from_origin tag rest
  end.

(** How many items the sources hold together, the endless ones apart. *)
Fixpoint total_items (live : list (string * source)) : nat :=
  match live with
  | [] => 0
  | (_, Finite items) :: rest => List.length items + total_items rest
  | (_, Endless _) :: rest => total_items rest
  end.

Definition all_finite (live : list (string * source)) : bool :=
  forallb (fun ts => is_finite (snd ts)) live.

End Merge.

Arguments Finite {A} items.
Arguments Endless {A} item.
Arguments next_item {A} s.
Arguments take_items {A} n s.
Arguments is_finite {A} s.
Arguments amerge {A} choices live.
Arguments from_origin {A} tag out.
Arguments total_items {A} live.
Arguments all_finite {A} live.

End StreamMerger.

(** ** Reading a trace *)

Fixpoint backend_sends (l : list effect) : list json :=
  match l with
  | [] => []
  | ModelSend ev :: rest => ev :: backend_sends rest
  | _ :: rest => backend_sends rest
  end.

Fixpoint sink_writes (l : list effect) : list json :=
  match l with
  | [] => []
  | SinkSend chunk :: rest => chunk :: sink_writes rest
  | _ :: rest => sink_writes rest
  end.

(** The backend event types [aconnect] has a branch of its own for. *)
Definition handled_types : list string :=
  [ "response.audio.delta";
    "response.audio_buffer.speech_started";
    "error";
    "response.function_call_arguments.done";
    "response.audio_transcript.done";
    "conversation.item.input_audio_transcription.completed";
    "response.text.done";
    "input_audio_buffer.speech_started" ].

(** A well-formed tool result item: a [conversation.item.create] whose
    item is a [function_call_output] for [call_id] with text [output]. *)
Definition tool_result (call_id : json) (output : string) : json :=
  JObj [("type", JStr "conversation.item.create");
        ("item", JObj [("id", call_id);
                       ("call_id", call_id);
                       ("type", JStr "function_call_output");
                       ("output", JStr output)])].

(** An error-tagged tool result: its output text starts with [Error: ]. *)
Definition error_result (call_id : json) (ev : json) : Prop :=
  exists msg, ev = tool_result call_id ("Error: " ++ msg).

(** The [ValueError] of [add_tool_call], the design's conflict error. *)
Definition ConflictError : exn :=
  ValueError "Tool call adding already in progress".

(** ** A concrete session to run the model on *)

Module Demo.

Definition echo : BaseTool :=
  {| name := "echo";
     description := "returns its arguments";
     args := JObj [];
     ainvoke := fun a => Returns (PJson a) |}.

Definition boom : BaseTool :=
  {| name := "boom";
     description := "always raises";
     args := JObj [];
     ainvoke := fun _ => Fails (ToolFailure "boom failed") |}.

Definition agent : OpenAIVoiceReactAgent :=
  {| model := "gpt-4o-realtime-preview-2024-10-01";
     instructions := Some "You are a helpful assistant.";
     tools := Some [echo; boom];
     url := "wss://api.openai.com/v1/realtime" |}.

(** A [response.function_call_arguments.done] event of the backend. *)
Definition call (call_id tool arguments : string) : json :=
  JObj [("type", JStr "response.function_call_arguments.done");
        ("call_id", JStr call_id);
        ("name", JStr tool);
        ("arguments", JStr arguments)].

(** The world of [agent] at the start of the merged loop. *)
Definition idle : world := initial_world agent.

(** The same world once [pending] has been armed. *)
Definition armed (pending : json) : world :=
  snd (set_future (Some pending) idle).

(** The text of [{"return_direct": true, "value": "X"}]. *)
Definition direct_output : string :=
  "{" ++ MiniJson.q "return_direct" ++ ": true, "
      ++ MiniJson.q "value" ++ ": " ++ MiniJson.q "X" ++ "}".

(** The texts of [{"return_direct": 1}] and of
    [{"return_direct": "false"}]. *)
Definition truthy_output_one : string :=
  "{" ++ MiniJson.q "return_direct" ++ ": 1}".

Definition truthy_output_text : string :=
  "{" ++ MiniJson.q "return_direct" ++ ": " ++ MiniJson.q "false" ++ "}".

End Demo.

(** [w] with the effects [l] appended to its trace. *)
Definition log (l : list effect) (w : world) : world :=
  {| executor := executor w; tasks := tasks w; outbox := outbox w;
     trace := trace w ++ l |}.

(** A computation that reads the world and leaves it as it was. *)
Definition keeps {A : Type} (c : M A) : Prop := forall w, snd (c w) = w.

Section Passthrough.

Context {rt : PyRuntime}.

(** The direct-passthrough condition on the output text of a tool
    result: it decodes to a dict whose [return_direct] is true in the
    sense of [if return_direct:]. *)
Definition return_direct_set (output : string) : Prop :=
  exists fields v,
    json_loads output = Some (JObj fields)
    /\ assoc "return_direct" fields = Some v
    /\ truthy v = true.

(** The output text [run_tool] gives a returned value when it gives
    one: [json.dumps] of it, or its [str] when [json.dumps] raised
    [TypeError]. *)
Definition result_text (result : pyobj) : string :=
  match result with
  | PJson j => json_dumps j
  | PObject text => text
  | PUndumpable _ text => text
  end.

End Passthrough.

(** What the loop body does with an item that is not JSON text. *)
Definition text_input_effects (s : string) : list effect :=
  [Print "Received raw text input:" (JStr s);
   Print "Received text input => sending to model:" (text_input_item (JStr s));
   ModelSend (text_input_item (JStr s));
   Sleep 100;
   Print "Sending response.create for text input:" text_response_create;
   ModelSend text_response_create].

(** The three sources of the spec's example. *)
Definition three_sources
    : list (string * StreamMerger.source string) :=
  [("a", StreamMerger.Finite ["a1"; "a2"]);
   ("b", StreamMerger.Finite ["b1"; "b2"]);
   ("c", StreamMerger.Finite ["c1"])].

(** ** The transport: [connect] *)

Definition DEFAULT_URL : string := "wss://api.openai.com/v1/realtime".

Section Transport.

Context {rt : PyRuntime}.

(** [send_event]: what [websocket.send] is given for an event, the
    [json.dumps] of a dict and anything else as it is. *)
Definition send_event (event : json) : json :=
  match event with
  | JObj _ => JStr (json_dumps event)
  | _ => event
  end.

(** One turn of [event_stream]: the received frame through
    [json.loads]. *)
Definition event_stream (raw_event : string) : outcome json :=
  loads_value (JStr raw_event).

(** A frame of the backend reaching the merged loop through
    [event_stream]: a frame that does not decode ends the stream, the
    merger and the loop with the decoder's exception. *)
Definition backend_frame (raw_event : string) : M unit :=
  data <- lift (event_stream raw_event) ;;
  loop_body "output_speaker" data.

End Transport.

(** ** The sample server: [realtime_chat.py] *)

Definition INSTRUCTIONS : string := "
Your knowledge cutoff is 2023-10. 
You are a helpful, witty, and friendly AI designed to assist drivers and passengers during their journey. 
Act like a human, but remember that you aren’t a human and that you can’t do human things in the real world. 
Your voice and personality should be warm and engaging, with a lively and playful tone, offering thoughtful and relevant advice tailored to those on the road. 
If interacting in a non-English language, start by using the standard accent or dialect familiar to the user. 
Ensure your responses are contextually appropriate for individuals driving or traveling. 
Talk quickly. 

The user may communicates in either Japanese or English. 
".

Definition TOOLS : list BaseTool := [].

(** The agent [websocket_endpoint] builds; [url] keeps its default. *)
Definition endpoint_agent : OpenAIVoiceReactAgent :=
  {| model := "gpt-4o-mini-realtime-preview-2024-12-17";
     instructions := Some INSTRUCTIONS;
     tools := Some TOOLS;
     url := DEFAULT_URL |}.

(** [websocket_endpoint], after the socket is accepted:
    [agent.aconnect(browser_receive_stream, websocket.send_text)], the
    texts [websocket_stream] yields being the [InputItem]s of the
    schedule. *)
Definition websocket_endpoint {rt : PyRuntime} (schedule : list occurrence)
    : outcome unit * world :=
  aconnect endpoint_agent schedule.

(** ** The connection handler: [lambda/hello.py] *)

(** [s.replace(old, new)] for a pattern that is not empty: occurrences
    are replaced from the left and do not overlap.  [skip] counts the
    characters of a matched occurrence still to pass over. *)
Fixpoint replace_from (old new : string) (skip : nat) (s : string) : string :=
  match s with
  | EmptyString => EmptyString
  | String c rest =>
      match skip with
      | S k => replace_from old new k rest
      | O =>
          if String.prefix old s
          then new ++ replace_from old new (String.length old - 1) rest
          else String c (replace_from old new 0 rest)
      end
  end.

Definition str_replace (old new s : string) : string :=
  replace_from old new 0 s.

(** Whether [pat] occurs in [s]. *)
Fixpoint occurs (pat s : string) : bool :=
  String.prefix pat s
  || match s with
     | EmptyString => false
     | String _ rest => occurs pat rest
     end.

(** Whether the character [c] is absent from [q]. *)
Fixpoint avoids (c : ascii) (q : string) : bool :=
  match q with
  | EmptyString => true
  | String a q' => negb (Ascii.eqb a c) && avoids c q'
  end.

Module Lambda.

(** The API Gateway management client: [post_to_connection] succeeds
    or raises. *)
Record ApiGatewayClient : Type := {
  post_to_connection : json -> string -> outcome unit
}.

(** What the handler takes from its surroundings: the environment
    variable, [boto3.client] for an endpoint, [json.dumps(_, indent=2)]
    and the text of an exception. *)
Record Env : Type := {
  WEBSOCKET_ENDPOINT : option string;
  boto3_client : string -> outcome ApiGatewayClient;
  dumps_indent : nat -> json -> string;
  str_exception : exn -> string
}.

(** What the handler does besides returning: a line printed, or
    [post_to_connection] called with a connection and the data. *)
Inductive effect : Type :=
| Printed (text : string)
| Posted (connection_id : json) (data : string).

Section Handler.

Context {rt : PyRuntime}.

(** A value inside an f-string: text as it is, anything else through
    [str]. *)
Definition format_value (v : json) : string :=
  match v with
  | JStr s => s
  | _ => py_str v
  end.

Definition response (status : Z) (body : string) : json :=
  JObj [("statusCode", JInt status); ("body", JStr body)].

(** The endpoint handed to [boto3.client]. *)
Definition endpoint (env : Env) : string :=
  str_replace "wss://" "https://"
    (match WEBSOCKET_ENDPOINT env with Some e => e | None => "" end).

(** [lambda_handler(event, context)]: the value returned or the
    exception raised, and what was printed and posted on the way.  The
    message is posted as its UTF-8 bytes, which a string here already
    is. *)
Definition lambda_handler (env : Env) (event : json)
    : outcome json * list effect :=
  let received := [Printed ("Received event: " ++ dumps_indent env 2 event)] in
  match getitem event "requestContext" with
  | Raise e => (Raise e, received)
  | Ok context1 =>
  match dict_get context1 "routeKey" (JStr "") with
  | Raise e => (Raise e, received)
  | Ok route_key =>
  match getitem event "requestContext" with
  | Raise e => (Raise e, received)
  | Ok context2 =>
  match dict_get context2 "connectionId" (JStr "") with
  | Raise e => (Raise e, received)
  | Ok connection_id =>
  match dict_get event "body" (JStr "") with
  | Raise e => (Raise e, received)
  | Ok body =>
  match boto3_client env (endpoint env) with
  | Raise e => (Raise e, received)
  | Ok apigw_client =>
      if eq_str route_key "$connect" then
        (Ok (response 200 "Connected"),
         received ++ [Printed ("New connection: " ++ format_value connection_id)])
      else if eq_str route_key "$disconnect" then
        (Ok (response 200 "Disconnected"),
         received ++ [Printed ("Disconnected: " ++ format_value connection_id)])
      else
        let message_to_send := ("Echo: " ++ format_value body)%string in
        let before :=
          received ++ [Printed ("Received message: " ++ format_value body);
                       Posted connection_id message_to_send] in
        match post_to_connection apigw_client connection_id message_to_send with
        | Ok _ =>
            (Ok (response 200 message_to_send),
             before ++ [Printed ("Sent message to " ++ format_value connection_id
                                 ++ ": " ++ message_to_send)])
        | Raise e =>
            (Ok (response 500 "Error processing request"),
             before ++ [Printed ("Failed to send message to "
                                 ++ format_value connection_id
                                 ++ ": " ++ str_exception env e)])
        end
  end end end end end end.

(** The fields the handler reads from a well-formed event. *)
Definition event_fields (event route_key connection_id body : json) : Prop :=
  exists ctx,
    getitem event "requestContext" = Ok ctx
    /\ dict_get ctx "routeKey" (JStr "") = Ok route_key
    /\ dict_get ctx "connectionId" (JStr "") = Ok connection_id
    /\ dict_get event "body" (JStr "") = Ok body.

(** The messages the handler posted to connections. *)
Fixpoint posts (l : list effect) : list (json * string) :=
  match l with
  | [] => []
  | Posted c d :: rest => (c, d) :: posts rest
  | Printed _ :: rest => posts rest
  end.

End Handler.

End Lambda.

(** ** Concrete events and worlds for the handler and the executor *)

Module LambdaDemo.

Definition ok_client : Lambda.ApiGatewayClient :=
  {| Lambda.post_to_connection := fun _ _ => Ok tt |}.

Definition gone_client : Lambda.ApiGatewayClient :=
  {| Lambda.post_to_connection := fun _ _ => Raise (ToolFailure "GoneException") |}.

Definition env (client : Lambda.ApiGatewayClient) : Lambda.Env :=
  {| Lambda.WEBSOCKET_ENDPOINT :=
       Some "wss://abc123.execute-api.us-east-1.amazonaws.com/prod";
     Lambda.boto3_client := fun _ => Ok client;
     Lambda.dumps_indent := fun _ j => MiniJson.dumps j;
     Lambda.str_exception :=
       fun e => match e with ToolFailure what => what | _ => "" end |}.

Definition event (route body : string) : json :=
  JObj [("requestContext", JObj [("routeKey", JStr route);
                                 ("connectionId", JStr "conn-1")]);
        ("body", JStr body)].

End LambdaDemo.

Module ExecutorDemo.

Definition task_a : tool_task :=
  {| task_call := Demo.call "a" "echo" "1";
     task_tool := Demo.echo;
     task_args := JInt 1 |}.

Definition task_b : tool_task :=
  {| task_call := Demo.call "b" "echo" "2";
     task_tool := Demo.echo;
     task_args := JInt 2 |}.

(** The demo world with [task_a] and [task_b] running. *)
Definition running : world :=
  {| executor := executor Demo.idle;
     tasks := [task_a; task_b];
     outbox := None;
     trace := [] |}.

(** A call whose arguments are an object, not text. *)
Definition object_call : json :=
  JObj [("type", JStr "response.function_call_arguments.done");
        ("call_id", JStr "c1");
        ("name", JStr "echo");
        ("arguments", JObj [])].

(** The fields of a call for an unknown tool, with no [call_id]. *)
Definition anonymous_call : list (string * json) :=
  [("type", JStr "response.function_call_arguments.done");
   ("name", JStr "nosuch");
   ("arguments", JStr "{}")].

End ExecutorDemo.

(** ** Relations every step of the session keeps *)

(** [c] takes every world to one related to it by [R]. *)
Definition preserves (R : world -> world -> Prop) {A : Type} (c : M A) : Prop :=
  forall w, R w (snd (c w)).

(** The tool registry is the one the session started with. *)
Definition same_registry (w w' : world) : Prop :=
  tools_by_name (executor w') = tools_by_name (executor w).

(** The trace has only been appended to. *)
Definition trace_grows (w w' : world) : Prop :=
  exists l, trace w' = trace w ++ l.

(** Nothing more has been sent to the backend. *)
Definition no_backend_send (w w' : world) : Prop :=
  backend_sends (trace w') = backend_sends (trace w).

(** Nothing more has been written to the sink. *)
Definition no_sink_write (w w' : world) : Prop :=
  sink_writes (trace w') = sink_writes (trace w).

(** The trace is as it was. *)
Definition same_trace (w w' : world) : Prop := trace w' = trace w.

(** What waits in the outbox is a tool result, and everything sent to
    the backend so far is a dict. *)
Definition well_formed (w : world) : Prop :=
  (forall ev, outbox w = Some (Ok ev) ->
     exists cid output, ev = tool_result cid output)
  /\ Forall (fun ev => is_dict ev = true) (backend_sends (trace w)).

Definition stays_well_formed (w w' : world) : Prop :=
  well_formed w -> well_formed w'.

(** With no tool registered, no tool task is running. *)
Definition no_tool_runs (w w' : world) : Prop :=
  tools_by_name (executor w) = [] -> tasks w = [] ->
  tools_by_name (executor w') = [] /\ tasks w' = [].

(** * Properties *)

(** ** The monad *)

Lemma keeps_ret {A : Type} (a : A) : keeps (ret a).
Proof. intro w. reflexivity. Qed.

Lemma keeps_raise {A : Type} (e : exn) : keeps (@raise A e).
Proof. intro w. reflexivity. Qed.

Lemma keeps_lift {A : Type} (o : outcome A) : keeps (lift o).
Proof. intro w. reflexivity. Qed.

Lemma keeps_get_world : keeps get_world.
Proof. intro w. reflexivity. Qed.

Lemma keeps_bind {A B : Type} (c : M A) (k : A -> M B) :
  keeps c -> (forall a, keeps (k a)) -> keeps (bind c k).
Proof.
  intros Hc Hk w. unfold bind. specialize (Hc w).
  destruct (c w) as [[a|e] w']; simpl in *; subst; [apply Hk | reflexivity].
Qed.

Lemma keeps_try {A : Type} (c : M A) (p : exn -> bool) (h : exn -> M A) :
  keeps c -> (forall e, keeps (h e)) -> keeps (try_except c p h).
Proof.
  intros Hc Hh w. unfold try_except. specialize (Hc w).
  destruct (c w) as [[a|e] w']; simpl in *; subst; [reflexivity|].
  destruct (p e); [apply Hh | reflexivity].
Qed.

Ltac keeps_tac :=
  repeat first
    [ apply keeps_bind; [| intro]
    | apply keeps_try; [| intro]
    | apply keeps_ret | apply keeps_raise | apply keeps_lift
    | apply keeps_get_world
    | match goal with
      | |- keeps (match ?x with _ => _ end) => destruct x
      | |- keeps (if ?x then _ else _) => destruct x
      end ].

Section ExecutorFacts.

Context {rt : PyRuntime}.

Lemma create_task_keeps (tool_call : json) :
  keeps (_create_tool_call_task tool_call).
Proof. unfold _create_tool_call_task. keeps_tac. Qed.

(** What one pass for the trigger task does, by the result of
    [_create_tool_call_task] in the world with the future replaced. *)
Lemma on_trigger_spec (tool_call : json) (w : world) :
  let w0 := snd (set_future None w) in
  on_trigger tool_call w =
  match fst (_create_tool_call_task tool_call w0) with
  | Ok t => (Ok None, snd (set_tasks (tasks w ++ [t]) w0))
  | Raise e =>
      if is_ValueError e then
        (match function_call_output tool_call ("Error: " ++ exn_str e) with
         | Ok ev => Ok (Some ev)
         | Raise e' => Raise e'
         end, w0)
      else (Raise e, w0)
  end.
Proof.
  intro w0.
  assert (E : set_future None w = (Ok tt, w0)) by reflexivity.
  assert (Et : tasks w0 = tasks w) by reflexivity.
  clearbody w0.
  unfold on_trigger, bind, try_except. rewrite E.
  pose proof (create_task_keeps tool_call w0) as Hk.
  destruct (_create_tool_call_task tool_call w0) as [[t|e] w1]; simpl in *; subst w1.
  - unfold get_world. rewrite Et. reflexivity.
  - destruct (is_ValueError e); [|reflexivity].
    unfold lift. destruct (function_call_output _ _); reflexivity.
Qed.

Lemma on_trigger_future (tool_call : json) (w : world) :
  _trigger_future (executor (snd (on_trigger tool_call w))) = None
  /\ outbox (snd (on_trigger tool_call w)) = outbox w
  /\ trace (snd (on_trigger tool_call w)) = trace w.
Proof.
  rewrite on_trigger_spec.
  destruct (fst (_create_tool_call_task _ _)) as [t|e]; simpl.
  - auto.
  - destruct (is_ValueError e); simpl; auto.
Qed.

Lemma add_tool_call_idle (tool_call : json) (w : world) :
  _trigger_future (executor w) = None ->
  add_tool_call tool_call w = (Ok tt, snd (set_future (Some tool_call) w)).
Proof.
  intro Hf. unfold add_tool_call, bind, get_world. rewrite Hf. reflexivity.
Qed.

Lemma add_tool_call_armed (tool_call pending : json) (w : world) :
  _trigger_future (executor w) = Some pending ->
  add_tool_call tool_call w = (Raise ConflictError, w).
Proof.
  intro Hf. unfold add_tool_call, bind, get_world. rewrite Hf. reflexivity.
Qed.

Lemma output_iterator_trigger_future (pending : json) (w : world) :
  _trigger_future (executor w) = Some pending ->
  outbox w = None ->
  _trigger_future (executor (snd (output_iterator TriggerTask w))) = None.
Proof.
  intros Hf Ho. unfold output_iterator. rewrite Ho.
  unfold output_iterator_step, bind at 1, get_world. rewrite Hf.
  destruct (on_trigger_future pending w) as (H1 & _ & _).
  destruct (on_trigger pending w) as [[[ev|]|e] w']; simpl in *; exact H1.
Qed.

Lemma function_call_output_ok (tool_call cid : json) (output : string) :
  getitem tool_call "call_id" = Ok cid ->
  function_call_output tool_call output = Ok (tool_result cid output).
Proof. intro Hid. unfold function_call_output. rewrite Hid. reflexivity. Qed.

Lemma function_call_output_inv (tool_call ev : json) (output : string) :
  function_call_output tool_call output = Ok ev ->
  exists cid, getitem tool_call "call_id" = Ok cid /\ ev = tool_result cid output.
Proof.
  unfold function_call_output.
  destruct (getitem tool_call "call_id") as [cid|e]; [|discriminate].
  intro Hev. injection Hev as <-. exists cid. split; reflexivity.
Qed.

Lemma run_tool_inv (t : tool_task) (ev : json) :
  run_tool t = Ok ev -> exists cid output, ev = tool_result cid output.
Proof.
  unfold run_tool.
  destruct (ainvoke (task_tool t) (task_args t)) as [r|e]; [|discriminate].
  destruct (dumps_result r) as [text|e].
  - intro Hf. apply function_call_output_inv in Hf as (cid & _ & ->). eauto.
  - destruct (is_TypeError e); [|discriminate].
    intro Hf. apply function_call_output_inv in Hf as (cid & _ & ->). eauto.
Qed.

(** Every item [output_iterator] yields is a well-formed tool result. *)
Lemma output_iterator_step_yields (c : completed) (w w' : world) (ev : json) :
  output_iterator_step c w = (Ok (Some ev), w') ->
  exists cid output, ev = tool_result cid output.
Proof.
  unfold output_iterator_step, bind at 1, get_world.
  destruct c as [|i].
  - destruct (_trigger_future (executor w)) as [call|]; [|discriminate].
    rewrite on_trigger_spec.
    destruct (fst (_create_tool_call_task _ _)) as [t|e]; [discriminate|].
    destruct (is_ValueError e); [|discriminate].
    destruct (function_call_output call _) as [ev'|e'] eqn:Hf; [|discriminate].
    intro Heq. injection Heq as <- _.
    apply function_call_output_inv in Hf as (cid & _ & ->). eauto.
  - destruct (nth_error (tasks w) i) as [t|]; [|discriminate].
    unfold bind, set_tasks, lift, ret.
    destruct (run_tool t) as [ev'|e'] eqn:Hf; [|discriminate].
    intro Heq. injection Heq as <- _.
    exact (run_tool_inv t ev' Hf).
Qed.

(** C3: from an idle slot, a first [add_tool_call] is accepted and fills
    the slot; any further [add_tool_call] before the dispatch loop has
    taken the call raises the conflict error and leaves the world, the
    pending call included, as it was; once [output_iterator] has processed
    the trigger task the slot is empty again and a new [add_tool_call] is
    accepted.  The slot holds at most one pending call. *)
Theorem C3_single_slot_arming (w : world) (c1 c2 c3 : json)
    (Hidle : _trigger_future (executor w) = None)
    (Hfree : outbox w = None) :
  exists w1,
    add_tool_call c1 w = (Ok tt, w1)
    /\ _trigger_future (executor w1) = Some c1
    /\ add_tool_call c2 w1 = (Raise ConflictError, w1)
    /\ let w2 := snd (output_iterator TriggerTask w1) in
       _trigger_future (executor w2) = None
       /\ exists w3,
            add_tool_call c3 w2 = (Ok tt, w3)
            /\ _trigger_future (executor w3) = Some c3.
Proof.
  exists (snd (set_future (Some c1) w)).
  split; [apply add_tool_call_idle; exact Hidle|].
  split; [reflexivity|].
  split; [apply add_tool_call_armed with (pending := c1); reflexivity|].
  intro w2.
  assert (H2 : _trigger_future (executor w2) = None).
  { apply output_iterator_trigger_future with (pending := c1);
      [reflexivity | exact Hfree]. }
  split; [exact H2|].
  exists (snd (set_future (Some c3) w2)).
  split; [apply add_tool_call_idle; exact H2 | reflexivity].
Qed.

End ExecutorFacts.

Section RoutingFacts.

Context {rt : PyRuntime}.

Lemma log_log (l1 l2 : list effect) (w : world) :
  log l2 (log l1 w) = log (l1 ++ l2) w.
Proof. unfold log. simpl. rewrite app_assoc. reflexivity. Qed.

Lemma emit_log (x : effect) (w : world) : emit x w = (Ok tt, log [x] w).
Proof. reflexivity. Qed.

(** What the loop does with a well-formed tool result: a print and two
    backend sends, then the sink write, if the passthrough condition
    holds, and nothing else. *)
Lemma on_tool_outputs_result (cid : json) (output : string) (w : world) :
  exists sink,
    on_tool_outputs (tool_result cid output) w =
      (Ok tt, log ([Print "tool output:" (tool_result cid output);
                    ModelSend (tool_result cid output);
                    ModelSend tool_response_create] ++ sink) w)
    /\ (sink = [SinkSend (JStr output)] /\ return_direct_set output
        \/ sink = [] /\ ~ return_direct_set output).
Proof.
  unfold on_tool_outputs, bind, print, model_send, send_output_chunk, lift,
    try_except, ret.
  rewrite !emit_log, !log_log. simpl.
  unfold return_direct_set.
  destruct (json_loads output) as [d|] eqn:Hl; simpl.
  - destruct d as [ | b | z | f | s | items | fields ]; simpl;
      try (exists []; split; [reflexivity|]; right;
           split; [reflexivity | intros (fs & v & Hd & _); discriminate]).
    destruct (assoc "return_direct" fields) as [v|] eqn:Ha; simpl.
    + destruct (truthy v) eqn:Ht.
      * exists [SinkSend (JStr output)]. rewrite emit_log, log_log. simpl.
        split; [reflexivity|]. left. split; [reflexivity|].
        exists fields, v. auto.
      * exists []. split; [reflexivity|]. right. split; [reflexivity|].
        intros (fs & v' & Hd & Ha' & Ht'). injection Hd as <-. congruence.
    + exists []. split; [reflexivity|]. right. split; [reflexivity|].
      intros (fs & v' & Hd & Ha' & Ht'). injection Hd as <-. congruence.
  - exists []. split; [reflexivity|]. right.
    split; [reflexivity | intros (fs & v & Hd & _); discriminate].
Qed.

Lemma loop_body_tool_outputs (ev : json) (w : world) :
  is_dict ev = true ->
  loop_body "tool_outputs" ev w = on_tool_outputs ev w.
Proof.
  intro Hd. destruct ev; try discriminate. reflexivity.
Qed.

(** C6: a tool result the executor produced, the
    [conversation.item.create] item carrying the call's [call_id] and the
    output text as a [function_call_output], is forwarded to the backend
    as it is, followed by the event of type [response.create] with an
    empty [response]; and when its output text decodes to a dict whose
    [return_direct] is true, the output text itself is also written to
    the sink. *)
Theorem C6_tool_result_forwarded (w : world) (tool_call ev : json)
    (output : string)
    (Hev : function_call_output tool_call output = Ok ev) :
  exists l,
    loop_body "tool_outputs" ev w = (Ok tt, log l w)
    /\ (exists call_id,
          getitem tool_call "call_id" = Ok call_id
          /\ ev = JObj [("type", JStr "conversation.item.create");
                        ("item", JObj [("id", call_id);
                                       ("call_id", call_id);
                                       ("type", JStr "function_call_output");
                                       ("output", JStr output)])])
    /\ backend_sends l
       = [ev; JObj [("type", JStr "response.create"); ("response", JObj [])]]
    /\ (forall fields v,
          json_loads output = Some (JObj fields) ->
          assoc "return_direct" fields = Some v ->
          truthy v = true ->
          sink_writes l = [JStr output]).
Proof.
  apply function_call_output_inv in Hev as (cid & Hid & ->).
  destruct (on_tool_outputs_result cid output w) as (sink & Hrun & Hsink).
  eexists. split; [rewrite loop_body_tool_outputs by reflexivity; exact Hrun|].
  split; [exists cid; split; [exact Hid | reflexivity]|].
  destruct Hsink as [[-> _] | [-> Hno]].
  - split; reflexivity.
  - split; [reflexivity|].
    intros fields v Hl Ha Ht. exfalso. apply Hno. exists fields, v. auto.
Qed.

(** C10, as the code has it: the passthrough check is best effort
    and tests the truth of [return_direct] as [if return_direct:] does.
    For a tool result whose output text is not valid JSON, or decodes to
    something that is not a dict, or decodes to a dict whose
    [return_direct] is missing or false in that sense ([false], [null],
    zero, an empty string, list or dict), the loop body ends normally,
    nothing is written to the sink, and the result, followed by the event
    of type [response.create] with an empty [response], has still gone to
    the backend. *)
Theorem C10_passthrough_best_effort (w : world) (tool_call ev : json)
    (output : string)
    (Hev : function_call_output tool_call output = Ok ev)
    (Hno : json_loads output = None
           \/ (exists d, json_loads output = Some d /\ is_dict d = false)
           \/ (exists fields,
                 json_loads output = Some (JObj fields)
                 /\ forall v, assoc "return_direct" fields = Some v ->
                              truthy v = false)) :
  exists l,
    loop_body "tool_outputs" ev w = (Ok tt, log l w)
    /\ (exists call_id,
          getitem tool_call "call_id" = Ok call_id
          /\ ev = JObj [("type", JStr "conversation.item.create");
                        ("item", JObj [("id", call_id);
                                       ("call_id", call_id);
                                       ("type", JStr "function_call_output");
                                       ("output", JStr output)])])
    /\ backend_sends l
       = [ev; JObj [("type", JStr "response.create"); ("response", JObj [])]]
    /\ sink_writes l = [].
Proof.
  apply function_call_output_inv in Hev as (cid & Hid & ->).
  destruct (on_tool_outputs_result cid output w) as (sink & Hrun & Hsink).
  eexists. split; [rewrite loop_body_tool_outputs by reflexivity; exact Hrun|].
  split; [exists cid; split; [exact Hid | reflexivity]|].
  destruct Hsink as [[_ (fields & v & Hl & Ha & Ht)] | [-> _]].
  - exfalso. destruct Hno as [Hn | [(d & Hd & Hnd) | (fs & Hd & Hv)]].
    + congruence.
    + rewrite Hl in Hd. injection Hd as <-. discriminate.
    + rewrite Hl in Hd. injection Hd as <-.
      rewrite (Hv v Ha) in Ht. discriminate.
  - split; reflexivity.
Qed.

Lemma loop_body_input_text (s : string) (w : world) :
  json_loads s = None ->
  loop_body "input_mic" (JStr s) w = (Ok tt, log (text_input_effects s) w).
Proof.
  intro Hraw.
  unfold loop_body, decode_item, try_except, bind, lift, loads_value.
  rewrite Hraw.
  change (on_text (text_input_item (JStr s))
            (log [Print "Received raw text input:" (JStr s)] w)
          = (Ok tt, log (text_input_effects s) w)).
  unfold on_text, bind, print, model_send, sleep.
  rewrite !emit_log, !log_log. reflexivity.
Qed.

(** C5: an input item that is not JSON text is wrapped in a
    [conversation.item.create] event, a [message] of role [user] whose
    content is the text itself as [input_text], which is sent to the
    backend and followed, after the pause, by a [response.create] with
    text modality and the instruction to respond concisely; those are the
    only two backend sends, in that order, and the sink is not written. *)
Theorem C5_plain_text_input (w : world) (s : string)
    (Hraw : json_loads s = None) :
  let item :=
    JObj [("type", JStr "conversation.item.create");
          ("item", JObj [("id", JStr "text_input");
                         ("type", JStr "message");
                         ("role", JStr "user");
                         ("content", JArr [JObj [("type", JStr "input_text");
                                                 ("text", JStr s)]])])] in
  let request :=
    JObj [("type", JStr "response.create");
          ("response", JObj [("modalities", JArr [JStr "text"]);
                             ("instructions",
                              JStr "Please respond concisely.")])] in
  let l := [Print "Received raw text input:" (JStr s);
            Print "Received text input => sending to model:" item;
            ModelSend item;
            Sleep 100;
            Print "Sending response.create for text input:" request;
            ModelSend request] in
  loop_body "input_mic" (JStr s) w = (Ok tt, log l w)
  /\ backend_sends l = [item; request]
  /\ sink_writes l = [].
Proof.
  intros item request l. split; [|split; reflexivity].
  apply loop_body_input_text. exact Hraw.
Qed.

Lemma loop_body_input_json (s : string) (d : json) (w : world) :
  json_loads s = Some d ->
  loop_body "input_mic" (JStr s) w = on_input_mic d w.
Proof.
  intro Hl. unfold loop_body, decode_item, try_except, bind, lift, loads_value.
  rewrite Hl. reflexivity.
Qed.

Lemma on_input_mic_typed (d t : json) (w : world) :
  getitem d "type" = Ok t ->
  exists l, on_input_mic d w = (Ok tt, log l w).
Proof.
  intro Ht. unfold on_input_mic, bind, lift, print, model_send. rewrite Ht.
  destruct (eq_str t "conversation.item.create"); unfold ret;
    rewrite ?emit_log, ?log_log; eexists; reflexivity.
Qed.

Lemma on_input_mic_untyped (d : json) (e : exn) (w : world) :
  getitem d "type" = Raise e ->
  on_input_mic d w = (Raise e, w).
Proof.
  intro Ht. unfold on_input_mic, bind, lift. rewrite Ht. reflexivity.
Qed.

Lemma merged_loop_raise (o : occurrence) (rest : list occurrence) (e : exn)
    (w w' : world) :
  occur o w = (Raise e, w') ->
  merged_loop (o :: rest) w = (Raise e, w').
Proof. intro Ho. simpl. unfold bind. rewrite Ho. reflexivity. Qed.

Lemma merged_loop_ok (o : occurrence) (rest : list occurrence) (w w' : world) :
  occur o w = (Ok tt, w') ->
  merged_loop (o :: rest) w = merged_loop rest w'.
Proof. intro Ho. simpl. unfold bind. rewrite Ho. reflexivity. Qed.

(** C9: an input item that is JSON text but does not decode to a dict
    with a ["type"] key makes the loop body raise at [data["type"]]; the
    exception leaves the merged loop, whatever was still to come, with
    nothing sent.  The input branch ends normally exactly for the items
    that are not JSON text or decode to a dict with a ["type"] key. *)
Theorem C9_untyped_json_input_raises (w : world) (s : string) (d : json)
    (rest : list occurrence)
    (Hjson : json_loads s = Some d)
    (Hbad : forall t, getitem d "type" <> Ok t) :
  (exists e,
     getitem d "type" = Raise e
     /\ loop_body "input_mic" (JStr s) w = (Raise e, w)
     /\ merged_loop (InputItem s :: rest) w = (Raise e, w))
  /\ (forall s',
        (exists w', loop_body "input_mic" (JStr s') w = (Ok tt, w'))
        <-> (json_loads s' = None
             \/ exists d' t, json_loads s' = Some d' /\ getitem d' "type" = Ok t)).
Proof.
  split.
  - destruct (getitem d "type") as [t|e] eqn:Ht; [exfalso; exact (Hbad t eq_refl)|].
    exists e. split; [reflexivity|].
    assert (Hb : loop_body "input_mic" (JStr s) w = (Raise e, w)).
    { rewrite (loop_body_input_json s d w Hjson).
      apply on_input_mic_untyped. exact Ht. }
    split; [exact Hb | apply merged_loop_raise; exact Hb].
  - intro s'. split.
    + intros (w' & Hrun).
      destruct (json_loads s') as [d'|] eqn:Hl; [right | left; reflexivity].
      rewrite (loop_body_input_json s' d' w Hl) in Hrun.
      destruct (getitem d' "type") as [t|e] eqn:Ht.
      * exists d', t. split; [reflexivity | exact Ht].
      * rewrite (on_input_mic_untyped d' e w Ht) in Hrun. discriminate.
    + intros [Hl | (d' & t & Hl & Ht)].
      * eexists. apply loop_body_input_text. exact Hl.
      * rewrite (loop_body_input_json s' d' w Hl).
        destruct (on_input_mic_typed d' t w Ht) as (l & Hrun).
        eexists. exact Hrun.
Qed.

Lemma eq_str_false (t : json) (s : string) : t <> JStr s -> eq_str t s = false.
Proof.
  intro Hne. destruct t; try reflexivity. simpl.
  destruct (String.eqb s0 s) eqn:E; [|reflexivity].
  apply String.eqb_eq in E. subst. exfalso. apply Hne. reflexivity.
Qed.

Lemma in_set_false (t : json) (l : list string) :
  hashable t = true ->
  (forall s, In s l -> t <> JStr s) ->
  in_set t l = Ok false.
Proof.
  intros Hh Hn. destruct t; try reflexivity; try discriminate. simpl.
  destruct (existsb (String.eqb s) l) eqn:E; [|reflexivity].
  apply existsb_exists in E as (x & Hin & Hx).
  apply String.eqb_eq in Hx. subst. exfalso. exact (Hn x Hin eq_refl).
Qed.

Lemma loop_body_output_speaker (data t : json) (w : world) :
  getitem data "type" = Ok t ->
  loop_body "output_speaker" data w = on_output_speaker data w.
Proof.
  intro Ht. destruct data; try discriminate. reflexivity.
Qed.

(** C8: a backend event whose type is none of the types the loop has a
    branch for and is not in [EVENTS_TO_IGNORE] is printed as unhandled
    and has no other effect; the merged loop goes on with what follows. *)
Theorem C8_unrecognized_event_ignored (w : world) (data t : json)
    (rest : list occurrence)
    (Htype : getitem data "type" = Ok t)
    (Hhash : hashable t = true)
    (Hunhandled : forall s, In s handled_types -> t <> JStr s)
    (Hnot_ignored : forall s, In s EVENTS_TO_IGNORE -> t <> JStr s) :
  loop_body "output_speaker" data w
    = (Ok tt, log [Print "Unhandled event type:" t] w)
  /\ merged_loop (BackendEvent data :: rest) w
     = merged_loop rest (log [Print "Unhandled event type:" t] w).
Proof.
  assert (Hb : loop_body "output_speaker" data w
               = (Ok tt, log [Print "Unhandled event type:" t] w)).
  { rewrite (loop_body_output_speaker data t w Htype).
    unfold on_output_speaker, bind at 1, lift. rewrite Htype.
    assert (Hf : forall s, In s handled_types -> eq_str t s = false).
    { intros s Hin. apply eq_str_false, Hunhandled, Hin. }
    rewrite !Hf by (simpl; auto 20).
    unfold bind, lift. rewrite (in_set_false t _ Hhash Hnot_ignored).
    reflexivity. }
  split; [exact Hb | apply merged_loop_ok; exact Hb].
Qed.

(** C2, as the code has it: while a call is armed and not yet
    dispatched, a further [response.function_call_arguments.done] event
    makes [add_tool_call] raise the conflict error, which nothing in the
    loop catches: the loop body and the merged loop end with that
    exception, the event has only been printed, nothing has been sent to
    the backend, and the armed call is still the pending one. *)
Theorem C2_conflict_ends_session (w : world) (data pending : json)
    (rest : list occurrence)
    (Htype : getitem data "type" = Ok (JStr "response.function_call_arguments.done"))
    (Harmed : _trigger_future (executor w) = Some pending) :
  let w' := log [Print "function_call:" data] w in
  loop_body "output_speaker" data w = (Raise ConflictError, w')
  /\ merged_loop (BackendEvent data :: rest) w = (Raise ConflictError, w')
  /\ backend_sends (trace w') = backend_sends (trace w)
  /\ _trigger_future (executor w') = Some pending.
Proof.
  intro w'.
  assert (Hb : loop_body "output_speaker" data w = (Raise ConflictError, w')).
  { rewrite (loop_body_output_speaker data _ w Htype).
    unfold on_output_speaker, bind at 1, lift. rewrite Htype. simpl.
    unfold bind, print. rewrite emit_log. fold w'.
    apply add_tool_call_armed with (pending := pending). exact Harmed. }
  split; [exact Hb|]. split; [apply merged_loop_raise; exact Hb|].
  split; [|exact Harmed].
  unfold w'. simpl. induction (trace w) as [|x l IH]; [reflexivity|].
  destruct x; simpl; rewrite ?IH; reflexivity.
Qed.

Lemma occur_tool_output_item (w : world) (ev : json) :
  outbox w = None ->
  occur ToolOutput (snd (set_outbox (Some (Ok ev)) w))
  = loop_body "tool_outputs" ev w.
Proof. intro Ho. destruct w; simpl in *; subst. reflexivity. Qed.

Lemma occur_tool_output_raise (w : world) (e : exn) :
  outbox w = None ->
  occur ToolOutput (snd (set_outbox (Some (Raise e)) w)) = (Raise e, w).
Proof. intro Ho. destruct w; simpl in *; subst. reflexivity. Qed.

(** A running tool that raises: its exception is what [output_iterator]
    ends with, and the merged loop ends with it when it takes the item. *)
Lemma tool_failure_leaves_loop (w : world) (i : nat) (t : tool_task)
    (e : exn) (rest : list occurrence) :
  outbox w = None ->
  nth_error (tasks w) i = Some t ->
  ainvoke (task_tool t) (task_args t) = Fails e ->
  merged_loop (ExecutorRuns (ToolTask i) :: ToolOutput :: rest) w
  = (Raise e, snd (set_tasks (remove_nth i (tasks w)) w)).
Proof.
  intros Hfree Hnth Hfail.
  set (w1 := snd (set_tasks (remove_nth i (tasks w)) w)).
  assert (Hiter : output_iterator (ToolTask i) w
                  = (Ok tt, snd (set_outbox (Some (Raise e)) w1))).
  { unfold output_iterator. rewrite Hfree.
    unfold output_iterator_step, bind at 1, get_world. rewrite Hnth.
    unfold bind, lift, run_tool. rewrite Hfail. reflexivity. }
  rewrite (merged_loop_ok (ExecutorRuns (ToolTask i)) (ToolOutput :: rest) w _ Hiter).
  apply merged_loop_raise.
  apply occur_tool_output_raise. exact Hfree.
Qed.

Lemma create_task_bad (w : world) (call : json) (n : string) :
  getitem call "name" = Ok (JStr n) ->
  (assoc n (tools_by_name (executor w)) = None
   \/ exists s, getitem call "arguments" = Ok (JStr s) /\ json_loads s = None) ->
  exists msg, _create_tool_call_task call w = (Raise (ValueError msg), w).
Proof.
  intros Hname Hbad.
  unfold _create_tool_call_task, bind at 1, get_world.
  unfold bind at 1, lift. rewrite Hname.
  unfold bind at 1. simpl tools_get.
  destruct (assoc n (tools_by_name (executor w))) as [tool|] eqn:Ha.
  - destruct Hbad as [Hn | (s & Harg & Hl)]; [discriminate|].
    unfold bind, try_except, lift, raise. rewrite Harg.
    unfold loads_value. rewrite Hl. simpl. eexists. reflexivity.
  - unfold bind, raise. eexists. reflexivity.
Qed.

(** C4: when the armed call names a tool that is not registered, or
    its argument text is not JSON, the pass of [output_iterator] for the
    trigger task yields, instead of raising, a tool result for the call's
    own [call_id] whose output starts with [Error: ]; the merged loop
    takes it, sends it and a [response.create] to the backend, and goes on
    with what follows. *)
Theorem C4_bad_call_becomes_error_result (w : world) (call cid : json)
    (n : string) (rest : list occurrence)
    (Harmed : _trigger_future (executor w) = Some call)
    (Hfree : outbox w = None)
    (Hid : getitem call "call_id" = Ok cid)
    (Hname : getitem call "name" = Ok (JStr n))
    (Hbad : assoc n (tools_by_name (executor w)) = None
            \/ exists s, getitem call "arguments" = Ok (JStr s)
                         /\ json_loads s = None) :
  exists ev w1,
    error_result cid ev
    /\ output_iterator_step TriggerTask w = (Ok (Some ev), w1)
    /\ outbox (snd (output_iterator TriggerTask w)) = Some (Ok ev)
    /\ exists l,
         merged_loop (ExecutorRuns TriggerTask :: ToolOutput :: rest) w
           = merged_loop rest (log l w1)
         /\ backend_sends l = [ev; tool_response_create].
Proof.
  set (w0 := snd (set_future None w)).
  destruct (create_task_bad w0 call n Hname Hbad) as (msg & Hcreate).
  assert (Hstep : output_iterator_step TriggerTask w
                  = (Ok (Some (tool_result cid ("Error: " ++ msg))), w0)).
  { unfold output_iterator_step, bind, get_world. rewrite Harmed.
    rewrite on_trigger_spec. fold w0. rewrite Hcreate. simpl fst.
    cbn [is_ValueError exn_str].
    rewrite (function_call_output_ok call cid _ Hid). reflexivity. }
  assert (Hiter : output_iterator TriggerTask w
                  = (Ok tt, snd (set_outbox
                       (Some (Ok (tool_result cid ("Error: " ++ msg)))) w0))).
  { unfold output_iterator. rewrite Hfree, Hstep. reflexivity. }
  exists (tool_result cid ("Error: " ++ msg)), w0.
  split; [exists msg; reflexivity|].
  split; [exact Hstep|].
  split; [rewrite Hiter; reflexivity|].
  destruct (on_tool_outputs_result cid ("Error: " ++ msg) w0)
    as (sink & Hrun & Hsink).
  eexists. split.
  - rewrite (merged_loop_ok (ExecutorRuns TriggerTask) (ToolOutput :: rest) w _ Hiter).
    apply merged_loop_ok.
    rewrite occur_tool_output_item by (unfold w0; simpl; exact Hfree).
    rewrite loop_body_tool_outputs by reflexivity.
    exact Hrun.
  - destruct Hsink as [[-> _] | [-> _]]; reflexivity.
Qed.

End RoutingFacts.

(** * The model on concrete sessions *)

Section Concrete.

Import Demo.

#[local] Existing Instance MiniJson.runtime.

Example decode_examples :
  json_loads "hello" = None
  /\ json_loads "42" = Some (JInt 42)
  /\ json_loads (MiniJson.q "hi") = Some (JStr "hi")
  /\ json_loads "{}" = Some (JObj [])
  /\ json_loads direct_output
     = Some (JObj [("return_direct", JBool true); ("value", JStr "X")]).
Proof. repeat split; vm_compute; reflexivity. Qed.

Example truthy_examples :
  truthy (JInt 0) = false /\ truthy (JFloat PrimFloat.zero) = false
  /\ truthy (JStr "") = false /\ truthy (JInt 1) = true
  /\ truthy (JBool true) = true.
Proof. repeat split; reflexivity. Qed.

(** C1, on the code: the tool [boom] raises when it runs.  Its call is
    armed by the backend event and dispatched; when its task completes,
    [output_iterator] re-raises the tool's exception at [task.result()],
    outside the [try] that turns dispatch errors into error items.  The
    exception leaves the merged loop: the session ends with it, the input
    that follows is never processed, and the backend has received nothing
    but the initial [session.update]. *)
Theorem C1_tool_exception_ends_session :
  let schedule := [BackendEvent (call "c1" "boom" "{}");
                   ExecutorRuns TriggerTask;
                   ExecutorRuns (ToolTask 0);
                   ToolOutput;
                   InputItem "hello"] in
  fst (aconnect agent schedule) = Raise (ToolFailure "boom failed")
  /\ backend_sends (trace (snd (aconnect agent schedule)))
     = [session_update agent]
  /\ sink_writes (trace (snd (aconnect agent schedule))) = [].
Proof. repeat split; vm_compute; reflexivity. Qed.

(** The same dispatch path with a tool that is not registered does
    produce the error item, which is what the failing tool misses. *)
Example unknown_tool_is_reported :
  let schedule := [BackendEvent (call "c1" "nosuch" "{}");
                   ExecutorRuns TriggerTask;
                   ToolOutput;
                   InputItem "hello"] in
  fst (aconnect agent schedule) = Ok tt
  /\ backend_sends (trace (snd (aconnect agent schedule)))
     = [session_update agent;
        tool_result (JStr "c1")
          "Error: tool nosuch not found. Must be one of ['echo', 'boom']";
        tool_response_create;
        text_input_item (JStr "hello");
        text_response_create].
Proof. repeat split; vm_compute; reflexivity. Qed.

(** C2 fails on the code: with the call [c1] armed and not dispatched,
    the event for [c2] ends the session with the conflict error; the
    input that follows is not processed, and the backend has received only
    the [session.update], no error item for either call. *)
Lemma C2_conflict_not_surfaced :
  let schedule := [BackendEvent (call "c1" "echo" "{}");
                   BackendEvent (call "c2" "echo" "{}");
                   InputItem "hello"] in
  fst (aconnect agent schedule) = Raise ConflictError
  /\ backend_sends (trace (snd (aconnect agent schedule)))
     = [session_update agent]
  /\ ~ (exists cid ev,
          In ev (backend_sends (trace (snd (aconnect agent schedule))))
          /\ error_result cid ev).
Proof.
  assert (Hs : backend_sends
                 (trace (snd (aconnect agent
                    [BackendEvent (call "c1" "echo" "{}");
                     BackendEvent (call "c2" "echo" "{}");
                     InputItem "hello"])))
               = [session_update agent])
    by (vm_compute; reflexivity).
  split; [vm_compute; reflexivity|]. split; [exact Hs|].
  cbv zeta. rewrite Hs. intros (cid & ev & [<- | []] & msg & Hev).
  unfold session_update, tool_result in Hev. discriminate Hev.
Qed.

(** C2, as amended, on a world where [c1] is armed. *)
Lemma C2_conflict_ends_session_witness :
  let data := call "c2" "echo" "{}" in
  let w' := log [Print "function_call:" data] (armed (call "c1" "echo" "{}")) in
  loop_body "output_speaker" data (armed (call "c1" "echo" "{}"))
    = (Raise ConflictError, w')
  /\ merged_loop [BackendEvent data; InputItem "hello"]
       (armed (call "c1" "echo" "{}"))
     = (Raise ConflictError, w')
  /\ backend_sends (trace w')
     = backend_sends (trace (armed (call "c1" "echo" "{}")))
  /\ _trigger_future (executor w') = Some (call "c1" "echo" "{}").
Proof.
  apply (C2_conflict_ends_session (armed (call "c1" "echo" "{}"))
           (call "c2" "echo" "{}") (call "c1" "echo" "{}")
           [InputItem "hello"]);
    reflexivity.
Defined.

(** C3 on the idle world of the demo agent. *)
Lemma C3_single_slot_arming_witness :
  exists w1,
    add_tool_call (call "c1" "echo" "{}") idle = (Ok tt, w1)
    /\ _trigger_future (executor w1) = Some (call "c1" "echo" "{}")
    /\ add_tool_call (call "c2" "echo" "{}") w1 = (Raise ConflictError, w1)
    /\ let w2 := snd (output_iterator TriggerTask w1) in
       _trigger_future (executor w2) = None
       /\ exists w3,
            add_tool_call (call "c3" "boom" "{}") w2 = (Ok tt, w3)
            /\ _trigger_future (executor w3) = Some (call "c3" "boom" "{}").
Proof.
  apply (C3_single_slot_arming idle (call "c1" "echo" "{}")
           (call "c2" "echo" "{}") (call "c3" "boom" "{}"));
    reflexivity.
Defined.

(** C4 on a call whose argument text is not JSON. *)
Lemma C4_bad_call_becomes_error_result_witness :
  exists ev w1,
    error_result (JStr "c7") ev
    /\ output_iterator_step TriggerTask (armed (call "c7" "echo" "{oops"))
       = (Ok (Some ev), w1)
    /\ outbox (snd (output_iterator TriggerTask (armed (call "c7" "echo" "{oops"))))
       = Some (Ok ev)
    /\ exists l,
         merged_loop [ExecutorRuns TriggerTask; ToolOutput; InputItem "hello"]
           (armed (call "c7" "echo" "{oops"))
           = merged_loop [InputItem "hello"] (log l w1)
         /\ backend_sends l = [ev; tool_response_create].
Proof.
  apply (C4_bad_call_becomes_error_result (armed (call "c7" "echo" "{oops"))
           (call "c7" "echo" "{oops") (JStr "c7") "echo" [InputItem "hello"]);
    try reflexivity.
  right. exists "{oops". split; vm_compute; reflexivity.
Defined.

(** C5 on the input [hello]. *)
Lemma C5_plain_text_input_witness :
  let item :=
    JObj [("type", JStr "conversation.item.create");
          ("item", JObj [("id", JStr "text_input");
                         ("type", JStr "message");
                         ("role", JStr "user");
                         ("content", JArr [JObj [("type", JStr "input_text");
                                                 ("text", JStr "hello")]])])] in
  let request :=
    JObj [("type", JStr "response.create");
          ("response", JObj [("modalities", JArr [JStr "text"]);
                             ("instructions",
                              JStr "Please respond concisely.")])] in
  let l := [Print "Received raw text input:" (JStr "hello");
            Print "Received text input => sending to model:" item;
            ModelSend item;
            Sleep 100;
            Print "Sending response.create for text input:" request;
            ModelSend request] in
  loop_body "input_mic" (JStr "hello") idle = (Ok tt, log l idle)
  /\ backend_sends l = [item; request]
  /\ sink_writes l = [].
Proof.
  apply (C5_plain_text_input idle "hello"). vm_compute. reflexivity.
Defined.

(** C6 on a result whose output asks for the direct passthrough. *)
Lemma C6_tool_result_forwarded_witness :
  let ev := tool_result (JStr "c1") direct_output in
  exists l,
    loop_body "tool_outputs" ev idle = (Ok tt, log l idle)
    /\ backend_sends l
       = [ev; JObj [("type", JStr "response.create"); ("response", JObj [])]]
    /\ sink_writes l = [JStr direct_output].
Proof.
  destruct (C6_tool_result_forwarded idle (call "c1" "echo" "{}")
              (tool_result (JStr "c1") direct_output) direct_output eq_refl)
    as (l & Hrun & _ & Hsends & Hsink).
  exists l. split; [exact Hrun|]. split; [exact Hsends|].
  apply (Hsink [("return_direct", JBool true); ("value", JStr "X")] (JBool true));
    vm_compute; reflexivity.
Defined.

(** C8 on an event type the loop does not know. *)
Lemma C8_unrecognized_event_ignored_witness :
  let data := JObj [("type", JStr "response.brand_new"); ("n", JInt 1)] in
  loop_body "output_speaker" data idle
    = (Ok tt, log [Print "Unhandled event type:" (JStr "response.brand_new")] idle)
  /\ merged_loop [BackendEvent data; InputItem "hello"] idle
     = merged_loop [InputItem "hello"]
         (log [Print "Unhandled event type:" (JStr "response.brand_new")] idle).
Proof.
  apply (C8_unrecognized_event_ignored idle
           (JObj [("type", JStr "response.brand_new"); ("n", JInt 1)])
           (JStr "response.brand_new") [InputItem "hello"]);
    try reflexivity;
    intros s Hin Heq; injection Heq as <-; simpl in Hin;
    repeat (destruct Hin as [Hin | Hin]; [discriminate Hin|]); exact Hin.
Defined.

(** C9 on the input [42]. *)
Lemma C9_untyped_json_input_raises_witness :
  (exists e,
     getitem (JInt 42) "type" = Raise e
     /\ loop_body "input_mic" (JStr "42") idle = (Raise e, idle)
     /\ merged_loop [InputItem "42"; InputItem "hello"] idle = (Raise e, idle))
  /\ (forall s',
        (exists w', loop_body "input_mic" (JStr s') idle = (Ok tt, w'))
        <-> (json_loads s' = None
             \/ exists d' t, json_loads s' = Some d' /\ getitem d' "type" = Ok t)).
Proof.
  apply (C9_untyped_json_input_raises idle "42" (JInt 42) [InputItem "hello"]).
  - vm_compute. reflexivity.
  - intros t Ht. discriminate Ht.
Defined.

(** C10 on a result whose output is not JSON. *)
Lemma C10_passthrough_best_effort_witness :
  let ev := tool_result (JStr "c1") "all done" in
  exists l,
    loop_body "tool_outputs" ev idle = (Ok tt, log l idle)
    /\ backend_sends l
       = [ev; JObj [("type", JStr "response.create"); ("response", JObj [])]]
    /\ sink_writes l = [].
Proof.
  destruct (C10_passthrough_best_effort idle (call "c1" "echo" "{}")
              (tool_result (JStr "c1") "all done") "all done" eq_refl)
    as (l & Hrun & _ & Hsends & Hsink).
  - left. vm_compute. reflexivity.
  - exists l. split; [exact Hrun|]. split; [exact Hsends | exact Hsink].
Defined.

(** C10 fails on the code as stated: an output whose [return_direct] is
    [1], or the text [false], has no true [return_direct] field, yet the
    test [if return_direct:] passes and the output is written to the
    sink. *)
Lemma C10_truthy_return_direct_is_passed :
  json_loads truthy_output_one = Some (JObj [("return_direct", JInt 1)])
  /\ sink_writes
       (trace (snd (loop_body "tool_outputs"
                      (tool_result (JStr "c1") truthy_output_one) idle)))
     = [JStr truthy_output_one]
  /\ json_loads truthy_output_text
     = Some (JObj [("return_direct", JStr "false")])
  /\ sink_writes
       (trace (snd (loop_body "tool_outputs"
                      (tool_result (JStr "c1") truthy_output_text) idle)))
     = [JStr truthy_output_text].
Proof. repeat split; vm_compute; reflexivity. Qed.

Example quoted_string_input_raises :
  fst (aconnect agent [InputItem (MiniJson.q "hi"); InputItem "hello"])
  = Raise TypeError.
Proof. vm_compute. reflexivity. Qed.

End Concrete.

(** * The stream merger *)

Section MergeFacts.

Import StreamMerger.

Variable A : Type.

#[local] Abbreviation wait_set := (list (string * source A)).

Lemma replace_nth_app (l1 l2 : wait_set) (a b : string * source A) :
  replace_nth (List.length l1) b (l1 ++ a :: l2) = l1 ++ b :: l2.
Proof.
  unfold replace_nth.
  rewrite firstn_app, firstn_all, Nat.sub_diag, skipn_app.
  rewrite skipn_all2 by lia.
  replace (S (List.length l1) - List.length l1) with 1 by lia.
  simpl. rewrite app_nil_r. reflexivity.
Qed.

Lemma remove_nth_app (l1 l2 : wait_set) (a : string * source A) :
  remove_nth (List.length l1) (l1 ++ a :: l2) = l1 ++ l2.
Proof.
  unfold remove_nth.
  rewrite firstn_app, firstn_all, Nat.sub_diag, skipn_app.
  rewrite skipn_all2 by lia.
  replace (S (List.length l1) - List.length l1) with 1 by lia.
  simpl. rewrite app_nil_r. reflexivity.
Qed.

(** Any choice designates a pending task of a wait set that is not
    empty. *)
Lemma choice_designates (live : wait_set) (c : nat) :
  live <> [] ->
  exists l1 tag s l2,
    live = l1 ++ (tag, s) :: l2
    /\ List.length l1 = c mod List.length live.
Proof.
  intro Hne.
  assert (Hk : c mod List.length live < List.length live).
  { apply Nat.mod_upper_bound. destruct live; [congruence | simpl; lia]. }
  destruct (nth_error live (c mod List.length live)) as [[tag s]|] eqn:E.
  - apply nth_error_split in E as (l1 & l2 & Hl & Hlen).
    exists l1, tag, s, l2. split; [exact Hl | exact Hlen].
  - apply nth_error_None in E. lia.
Qed.

Lemma amerge_cons (c : nat) (rest : list nat) (live : wait_set) :
  live <> [] ->
  amerge (c :: rest) live =
  match nth_error live (c mod List.length live) with
  | None => ([], live)
  | Some (tag, s) =>
      match next_item s with
      | Some (x, s') =>
          let (out, final) :=
            amerge rest (replace_nth (c mod List.length live) (tag, s') live) in
          ((tag, x) :: out, final)
      | None => amerge rest (remove_nth (c mod List.length live) live)
      end
  end.
Proof. intro Hne. destruct live; [congruence | reflexivity]. Qed.

(** One turn of the merge loop on the designated task. *)
Lemma amerge_turn (c : nat) (rest : list nat) (l1 l2 : wait_set)
    (tag : string) (s : source A) :
  List.length l1 = c mod List.length (l1 ++ (tag, s) :: l2) ->
  amerge (c :: rest) (l1 ++ (tag, s) :: l2) =
  match next_item s with
  | Some (x, s') =>
      ((tag, x) :: fst (amerge rest (l1 ++ (tag, s') :: l2)),
       snd (amerge rest (l1 ++ (tag, s') :: l2)))
  | None => amerge rest (l1 ++ l2)
  end.
Proof.
  intro Hk.
  rewrite amerge_cons by (destruct l1; discriminate).
  rewrite <- Hk.
  rewrite nth_error_app2 by lia. rewrite Nat.sub_diag. cbn [nth_error].
  destruct (next_item s) as [[x s']|].
  - rewrite replace_nth_app.
    destruct (amerge rest (l1 ++ (tag, s') :: l2)). reflexivity.
  - rewrite remove_nth_app. reflexivity.
Qed.

(** Induction along the turns of the merge loop. *)
Lemma amerge_turns
    (P : list nat -> wait_set -> list (string * A) * wait_set -> Prop) :
  (forall live, P [] live ([], live)) ->
  (forall c rest, P (c :: rest) [] ([], [])) ->
  (forall c rest l1 tag s l2 x s',
      next_item s = Some (x, s') ->
      P rest (l1 ++ (tag, s') :: l2) (amerge rest (l1 ++ (tag, s') :: l2)) ->
      P (c :: rest) (l1 ++ (tag, s) :: l2)
        ((tag, x) :: fst (amerge rest (l1 ++ (tag, s') :: l2)),
         snd (amerge rest (l1 ++ (tag, s') :: l2)))) ->
  (forall c rest l1 tag s l2,
      next_item s = None ->
      P rest (l1 ++ l2) (amerge rest (l1 ++ l2)) ->
      P (c :: rest) (l1 ++ (tag, s) :: l2) (amerge rest (l1 ++ l2))) ->
  forall choices live, P choices live (amerge choices live).
Proof.
  intros Hnil Hempty Hyield Hdrop choices.
  induction choices as [|c rest IH]; intro live.
  - apply Hnil.
  - destruct live as [|p live'] eqn:El; [apply Hempty|].
    rewrite <- El.
    destruct (choice_designates live c) as (l1 & tag & s & l2 & Hl & Hk).
    { rewrite El. discriminate. }
    rewrite Hl in Hk |- *. rewrite (amerge_turn c rest l1 l2 tag s Hk).
    destruct (next_item s) as [[x s']|] eqn:En.
    + apply Hyield; [exact En | apply IH].
    + apply Hdrop; [exact En | apply IH].
Qed.

Lemma all_finite_app (l1 l2 : wait_set) :
  all_finite (l1 ++ l2) = all_finite l1 && all_finite l2.
Proof. unfold all_finite. apply forallb_app. Qed.

Lemma total_items_app (l1 l2 : wait_set) :
  total_items (l1 ++ l2) = total_items l1 + total_items l2.
Proof.
  induction l1 as [|[tag [items|f]] l1 IH]; simpl; rewrite ?IH; lia.
Qed.

Lemma next_item_finite (s s' : source A) (x : A) :
  next_item s = Some (x, s') -> is_finite s' = is_finite s.
Proof.
  destruct s as [[|y items]|f]; simpl; intro E; try discriminate;
    injection E as _ <-; reflexivity.
Qed.

Lemma next_item_none (s : source A) : next_item s = None -> s = Finite [].
Proof. destruct s as [[|y items]|f]; simpl; intro E; congruence. Qed.

Lemma next_item_some_finite (items : list A) (x : A) (s' : source A) :
  next_item (Finite items) = Some (x, s') ->
  exists rest, items = x :: rest /\ s' = Finite rest.
Proof.
  destruct items as [|y rest]; simpl; intro E; [discriminate|].
  injection E as -> <-. exists rest. split; reflexivity.
Qed.

(** In a mapping, a tag has one source. *)
Lemma tag_unique (l1 l2 : wait_set) (tag : string) (s s0 : source A) :
  NoDup (map fst (l1 ++ (tag, s0) :: l2)) ->
  In (tag, s) (l1 ++ (tag, s0) :: l2) ->
  s = s0.
Proof.
  intros Hnd Hin. rewrite map_app in Hnd. simpl in Hnd.
  apply NoDup_remove_2 in Hnd.
  apply in_app_iff in Hin as [Hin | [Heq | Hin]].
  - exfalso. apply Hnd, in_app_iff. left.
    change tag with (fst (tag, s)). apply in_map. exact Hin.
  - congruence.
  - exfalso. apply Hnd, in_app_iff. right.
    change tag with (fst (tag, s)). apply in_map. exact Hin.
Qed.

Lemma other_tag_stays (l1 l2 : wait_set) (tag tag0 : string)
    (s s0 : source A) :
  tag <> tag0 ->
  In (tag, s) (l1 ++ (tag0, s0) :: l2) ->
  In (tag, s) (l1 ++ l2).
Proof.
  intros Hne Hin. apply in_app_iff in Hin as [Hin | [Heq | Hin]];
    [apply in_app_iff; left; exact Hin
    | congruence
    | apply in_app_iff; right; exact Hin].
Qed.

Lemma in_weaken (l1 l2 : wait_set) (a b : string * source A) :
  In a (l1 ++ l2) -> In a (l1 ++ b :: l2).
Proof.
  intro Hin. apply in_app_iff in Hin as [Hin | Hin]; apply in_app_iff;
    [left | right; right]; exact Hin.
Qed.

Lemma tags_replace (l1 l2 : wait_set) (tag : string) (s s' : source A) :
  map fst (l1 ++ (tag, s') :: l2) = map fst (l1 ++ (tag, s) :: l2).
Proof. rewrite !map_app. reflexivity. Qed.

Lemma tags_remove (l1 l2 : wait_set) (tag : string) (s : source A) :
  NoDup (map fst (l1 ++ (tag, s) :: l2)) ->
  NoDup (map fst (l1 ++ l2)) /\ ~ In tag (map fst (l1 ++ l2)).
Proof.
  rewrite !map_app. simpl. intro Hnd. split.
  - apply NoDup_remove_1 in Hnd. exact Hnd.
  - apply NoDup_remove_2 in Hnd. exact Hnd.
Qed.

(** Only the tags of the wait set occur in what the merge yields. *)
Lemma amerge_origins (choices : list nat) (live : wait_set) :
  forall tag, ~ In tag (map fst live) ->
  from_origin tag (fst (amerge choices live)) = [].
Proof.
  revert choices live.
  apply (amerge_turns (fun _ live r =>
           forall tag, ~ In tag (map fst live) -> from_origin tag (fst r) = [])).
  - reflexivity.
  - reflexivity.
  - intros c rest l1 tag0 s l2 x s' En IH tag Hnot. simpl.
    destruct (String.eqb tag0 tag) eqn:E.
    + apply String.eqb_eq in E. subst. exfalso. apply Hnot.
      rewrite map_app. apply in_app_iff. right. left. reflexivity.
    + apply IH. rewrite (tags_replace l1 l2 tag0 s s'). exact Hnot.
  - intros c rest l1 tag0 s l2 En IH tag Hnot. apply IH.
    intro Hin. apply Hnot. rewrite map_app in Hin |- *.
    apply in_app_iff in Hin as [Hin | Hin]; apply in_app_iff;
      [left | right; right]; exact Hin.
Qed.

(** The items yielded under a tag are the first items of its source, in
    the source's order. *)
Lemma amerge_keeps_order (choices : list nat) (live : wait_set) :
  NoDup (map fst live) ->
  forall tag s, In (tag, s) live ->
  from_origin tag (fst (amerge choices live))
  = take_items (List.length (from_origin tag (fst (amerge choices live)))) s.
Proof.
  revert choices live.
  apply (amerge_turns (fun _ live r =>
           NoDup (map fst live) ->
           forall tag s, In (tag, s) live ->
           from_origin tag (fst r)
           = take_items (List.length (from_origin tag (fst r))) s)).
  - reflexivity.
  - reflexivity.
  - intros c rest l1 tag0 s0 l2 x s' En IH Hnd tag s Hin. cbn [fst from_origin].
    rewrite <- (tags_replace l1 l2 tag0 s0 s') in Hnd.
    destruct (String.eqb tag0 tag) eqn:E.
    + apply String.eqb_eq in E. subst tag0.
      rewrite (tags_replace l1 l2 tag s0 s') in Hnd.
      assert (s = s0) by (eapply tag_unique; eassumption). subst s0.
      rewrite <- (tags_replace l1 l2 tag s s') in Hnd.
      cbn [List.length take_items]. rewrite En. f_equal.
      apply IH; [exact Hnd|]. apply in_app_iff. right. left. reflexivity.
    + apply String.eqb_neq in E.
      apply IH; [exact Hnd|]. apply in_weaken.
      eapply other_tag_stays; [|exact Hin]. congruence.
  - intros c rest l1 tag0 s0 l2 En IH Hnd tag s Hin.
    destruct (tags_remove l1 l2 tag0 s0 Hnd) as (Hnd' & Hout).
    destruct (String.eqb tag0 tag) eqn:E.
    + apply String.eqb_eq in E. subst tag0.
      rewrite (amerge_origins rest (l1 ++ l2) tag Hout). reflexivity.
    + apply String.eqb_neq in E.
      apply IH; [exact Hnd'|].
      eapply other_tag_stays; [|exact Hin]. congruence.
Qed.

Lemma all_finite_pick (l1 l2 : wait_set) (tag : string) (s : source A) :
  all_finite (l1 ++ (tag, s) :: l2)
  = all_finite l1 && (is_finite s && all_finite l2).
Proof. rewrite all_finite_app. reflexivity. Qed.

(** While an endless source is in the wait set, the merge does not end. *)
Lemma amerge_endless (choices : list nat) (live : wait_set) :
  all_finite live = false -> snd (amerge choices live) <> [].
Proof.
  revert choices live.
  apply (amerge_turns (fun _ live r => all_finite live = false -> snd r <> [])).
  - intros live Hf. simpl. intros ->. discriminate Hf.
  - intros c rest Hf. discriminate Hf.
  - intros c rest l1 tag s l2 x s' En IH Hf. simpl. apply IH.
    rewrite all_finite_pick in Hf |- *.
    rewrite (next_item_finite s s' x En). exact Hf.
  - intros c rest l1 tag s l2 En IH Hf. apply IH.
    rewrite all_finite_pick in Hf. rewrite all_finite_app.
    rewrite (next_item_none s En) in Hf. exact Hf.
Qed.

(** Finite sources are exhausted within as many turns as they hold
    items, plus one turn each to find them exhausted. *)
Lemma amerge_ends (choices : list nat) (live : wait_set) :
  all_finite live = true ->
  total_items live + List.length live <= List.length choices ->
  snd (amerge choices live) = [].
Proof.
  revert choices live.
  apply (amerge_turns (fun choices live r =>
           all_finite live = true ->
           total_items live + List.length live <= List.length choices ->
           snd r = [])).
  - intros live _ Hlen. simpl in *. destruct live; [reflexivity | simpl in Hlen; lia].
  - reflexivity.
  - intros c rest l1 tag s l2 x s' En IH Hf Hlen. simpl snd.
    rewrite all_finite_pick in Hf.
    destruct s as [items|f]; [|rewrite andb_false_r in Hf; discriminate].
    apply next_item_some_finite in En as (its & -> & ->).
    apply IH; [rewrite all_finite_pick; exact Hf|].
    rewrite total_items_app, length_app in Hlen |- *. simpl in *. lia.
  - intros c rest l1 tag s l2 En IH Hf Hlen.
    rewrite all_finite_pick in Hf. rewrite (next_item_none s En) in Hf, Hlen.
    apply IH; [rewrite all_finite_app; exact Hf|].
    rewrite total_items_app, length_app in Hlen |- *. simpl in *. lia.
Qed.

(** A merge of finite sources that has ended has yielded every item. *)
Lemma amerge_count (choices : list nat) (live : wait_set) :
  all_finite live = true ->
  snd (amerge choices live) = [] ->
  List.length (fst (amerge choices live)) = total_items live.
Proof.
  revert choices live.
  apply (amerge_turns (fun _ live r =>
           all_finite live = true -> snd r = [] ->
           List.length (fst r) = total_items live)).
  - intros live _ Hend. simpl in *. subst. reflexivity.
  - reflexivity.
  - intros c rest l1 tag s l2 x s' En IH Hf Hend. simpl in Hend |- *.
    rewrite all_finite_pick in Hf.
    destruct s as [items|f]; [|rewrite andb_false_r in Hf; discriminate].
    apply next_item_some_finite in En as (its & -> & ->).
    rewrite IH; [|rewrite all_finite_pick; exact Hf | exact Hend].
    rewrite !total_items_app. simpl. lia.
  - intros c rest l1 tag s l2 En IH Hf Hend.
    rewrite all_finite_pick in Hf. rewrite (next_item_none s En) in Hf |- *.
    rewrite IH; [|rewrite all_finite_app; exact Hf | exact Hend].
    rewrite !total_items_app. reflexivity.
Qed.

(** And under each tag, all the items of its source. *)
Lemma amerge_complete (choices : list nat) (live : wait_set) :
  NoDup (map fst live) ->
  snd (amerge choices live) = [] ->
  forall tag items, In (tag, Finite items) live ->
  from_origin tag (fst (amerge choices live)) = items.
Proof.
  revert choices live.
  apply (amerge_turns (fun _ live r =>
           NoDup (map fst live) -> snd r = [] ->
           forall tag items, In (tag, Finite items) live ->
           from_origin tag (fst r) = items)).
  - intros live _ Hend tag items Hin. simpl in Hend. subst. destruct Hin.
  - intros c rest _ _ tag items Hin. destruct Hin.
  - intros c rest l1 tag0 s0 l2 x s' En IH Hnd Hend tag items Hin.
    cbn [fst snd from_origin] in *.
    destruct (String.eqb tag0 tag) eqn:E.
    + apply String.eqb_eq in E. subst tag0.
      assert (Hs : Finite items = s0) by (eapply tag_unique; eassumption).
      subst s0. apply next_item_some_finite in En as (its & -> & ->).
      f_equal. apply IH; [|exact Hend|].
      * rewrite (tags_replace l1 l2 tag (Finite (x :: its)) (Finite its)).
        exact Hnd.
      * apply in_app_iff. right. left. reflexivity.
    + apply String.eqb_neq in E. apply IH; [|exact Hend|].
      * rewrite (tags_replace l1 l2 tag0 s0 s'). exact Hnd.
      * apply in_weaken. eapply other_tag_stays; [|exact Hin]. congruence.
  - intros c rest l1 tag0 s0 l2 En IH Hnd Hend tag items Hin.
    destruct (tags_remove l1 l2 tag0 s0 Hnd) as (Hnd' & Hout).
    destruct (String.eqb tag0 tag) eqn:E.
    + apply String.eqb_eq in E. subst tag0.
      assert (Hs : Finite items = s0) by (eapply tag_unique; eassumption).
      subst s0. apply next_item_none in En. injection En as ->.
      apply amerge_origins. exact Hout.
    + apply String.eqb_neq in E. apply IH; [exact Hnd' | exact Hend |].
      eapply other_tag_stays; [|exact Hin]. congruence.
Qed.

(** C7: for a mapping of tags to sources, whatever the scheduler
    chooses, (1) what the merge yields under a tag is an initial run of
    that tag's source, in the source's order; (2) the merge can end
    exactly when every source is finite; (3) whenever it has ended it has
    yielded as many items as the sources hold together, and under each
    tag all the items of its source; (4) with finite sources it has
    ended once every item has been yielded and every source found
    exhausted. *)
Theorem C7_amerge_order_and_termination (live : wait_set)
    (Htags : NoDup (map fst live)) :
  (forall choices tag s,
      In (tag, s) live ->
      from_origin tag (fst (amerge choices live))
      = take_items
          (List.length (from_origin tag (fst (amerge choices live)))) s)
  /\ ((exists choices, snd (amerge choices live) = [])
      <-> all_finite live = true)
  /\ (forall choices,
        snd (amerge choices live) = [] ->
        List.length (fst (amerge choices live)) = total_items live
        /\ forall tag items,
             In (tag, Finite items) live ->
             from_origin tag (fst (amerge choices live)) = items)
  /\ (all_finite live = true ->
      forall choices,
        total_items live + List.length live <= List.length choices ->
        snd (amerge choices live) = []).
Proof.
  assert (Hfin : forall choices,
             snd (amerge choices live) = [] -> all_finite live = true).
  { intros choices Hend. destruct (all_finite live) eqn:Hf; [reflexivity|].
    exfalso. exact (amerge_endless choices live Hf Hend). }
  split; [intros choices tag s Hin; apply amerge_keeps_order; assumption|].
  split.
  { split.
    - intros (choices & Hend). exact (Hfin choices Hend).
    - intro Hf. exists (repeat 0 (total_items live + List.length live)).
      apply amerge_ends; [exact Hf | rewrite repeat_length; lia]. }
  split.
  { intros choices Hend. split.
    - apply amerge_count; [exact (Hfin choices Hend) | exact Hend].
    - apply amerge_complete; assumption. }
  intros Hf choices Hlen. apply amerge_ends; assumption.
Qed.

End MergeFacts.

Section MergeConcrete.

Import StreamMerger.

Lemma three_sources_tags : NoDup (map fst three_sources).
Proof. simpl. repeat constructor; simpl; intuition discriminate. Qed.

Example amerge_three_sources :
  amerge [2; 0; 1; 1; 0; 0; 0; 0] three_sources
  = ([("c", "c1"); ("a", "a1"); ("b", "b1"); ("b", "b2"); ("a", "a2")], []).
Proof. vm_compute. reflexivity. Qed.

(** Under every schedule of eight turns or more the merge of the three
    sources ends after exactly five items, [a1] before [a2] and [b1]
    before [b2]. *)
Example amerge_three_sources_any_schedule (choices : list nat) :
  8 <= List.length choices ->
  snd (amerge choices three_sources) = []
  /\ List.length (fst (amerge choices three_sources)) = 5
  /\ from_origin "a" (fst (amerge choices three_sources)) = ["a1"; "a2"]
  /\ from_origin "b" (fst (amerge choices three_sources)) = ["b1"; "b2"]
  /\ from_origin "c" (fst (amerge choices three_sources)) = ["c1"].
Proof.
  intro Hlen.
  assert (Hend : snd (amerge choices three_sources) = [])
    by (apply amerge_ends; [reflexivity | exact Hlen]).
  split; [exact Hend|].
  split; [apply (amerge_count string choices three_sources eq_refl Hend)|].
  repeat split;
    apply (amerge_complete string choices three_sources three_sources_tags Hend);
    simpl; auto.
Qed.

(** C7 on the three sources, under one schedule. *)
Lemma C7_amerge_three_sources_witness :
  from_origin "a" (fst (amerge [2; 0; 1; 1; 0; 0; 0; 0] three_sources))
    = ["a1"; "a2"]
  /\ from_origin "b" (fst (amerge [2; 0; 1; 1; 0; 0; 0; 0] three_sources))
     = ["b1"; "b2"]
  /\ snd (amerge [2; 0; 1; 1; 0; 0; 0; 0] three_sources) = []
  /\ List.length (fst (amerge [2; 0; 1; 1; 0; 0; 0; 0] three_sources)) = 5.
Proof.
  destruct (C7_amerge_order_and_termination string three_sources
              three_sources_tags) as (_ & _ & Hdone & Hends).
  assert (Hend : snd (amerge [2; 0; 1; 1; 0; 0; 0; 0] three_sources) = [])
    by (apply Hends; [reflexivity | simpl; lia]).
  destruct (Hdone _ Hend) as (Hcount & Hall).
  split; [apply Hall; simpl; auto|].
  split; [apply Hall; simpl; auto|].
  split; [exact Hend | exact Hcount].
Defined.

End MergeConcrete.

(** * The connection handler *)

Section LambdaFacts.

Import Lambda.

Context {rt : PyRuntime}.

Ltac read_event Hev :=
  let ctx := fresh "ctx" in
  let E1 := fresh "E" in let E2 := fresh "E" in
  let E3 := fresh "E" in let E4 := fresh "E" in
  destruct Hev as (ctx & E1 & E2 & E3 & E4);
  unfold lambda_handler; rewrite E1, E2, E3, E4.

(** X1: on the routes [$connect] and [$disconnect] the handler answers
    200 with the fixed body and posts nothing to any connection, whatever
    the event's body. *)
Theorem lambda_connect_disconnect_post_nothing (env : Env)
    (event connection_id body : json) (route : string)
    (client : ApiGatewayClient)
    (Hroute : route = "$connect" \/ route = "$disconnect")
    (Hev : event_fields event (JStr route) connection_id body)
    (Hclient : boto3_client env (endpoint env) = Ok client) :
  fst (lambda_handler env event)
    = Ok (response 200 (if String.eqb route "$connect"
                        then "Connected" else "Disconnected"))
  /\ posts (snd (lambda_handler env event)) = [].
Proof.
  read_event Hev. rewrite Hclient.
  destruct Hroute as [-> | ->]; simpl; split; reflexivity.
Qed.

(** X2: on any other route the handler posts exactly one message, to
    the event's own connection: [Echo: ] followed by the body; when the
    post succeeds it answers 200 with the very text it posted. *)
Theorem lambda_echo_round_trip (env : Env)
    (event route_key connection_id body : json) (client : ApiGatewayClient)
    (Hev : event_fields event route_key connection_id body)
    (Hother : route_key <> JStr "$connect" /\ route_key <> JStr "$disconnect")
    (Hclient : boto3_client env (endpoint env) = Ok client)
    (Hpost : post_to_connection client connection_id
               ("Echo: " ++ format_value body) = Ok tt) :
  fst (lambda_handler env event)
    = Ok (response 200 ("Echo: " ++ format_value body))
  /\ posts (snd (lambda_handler env event))
     = [(connection_id, ("Echo: " ++ format_value body)%string)].
Proof.
  read_event Hev. rewrite Hclient.
  destruct Hother as (H1 & H2).
  rewrite (eq_str_false _ _ H1), (eq_str_false _ _ H2).
  cbv zeta. rewrite Hpost. split; reflexivity.
Qed.

(** X3: a post that raises does not leave the handler: the answer is
    500 [Error processing request], after the one attempt. *)
Theorem lambda_post_failure_is_500 (env : Env)
    (event route_key connection_id body : json) (client : ApiGatewayClient)
    (e : exn)
    (Hev : event_fields event route_key connection_id body)
    (Hother : route_key <> JStr "$connect" /\ route_key <> JStr "$disconnect")
    (Hclient : boto3_client env (endpoint env) = Ok client)
    (Hpost : post_to_connection client connection_id
               ("Echo: " ++ format_value body) = Raise e) :
  fst (lambda_handler env event)
    = Ok (response 500 "Error processing request")
  /\ posts (snd (lambda_handler env event))
     = [(connection_id, ("Echo: " ++ format_value body)%string)].
Proof.
  read_event Hev. rewrite Hclient.
  destruct Hother as (H1 & H2).
  rewrite (eq_str_false _ _ H1), (eq_str_false _ _ H2).
  cbv zeta. rewrite Hpost. split; reflexivity.
Qed.

(** X4: the handler returns, rather than raises, exactly when the
    event is a dict with a dict under [requestContext] and the client
    could be created; a failing post never makes it raise. *)
Theorem lambda_handler_returns_iff (env : Env) (event : json) :
  (exists r, fst (lambda_handler env event) = Ok r)
  <-> ((exists route_key connection_id body,
          event_fields event route_key connection_id body)
       /\ exists client, boto3_client env (endpoint env) = Ok client).
Proof.
  split.
  - intros (r & Hr). unfold lambda_handler in Hr.
    destruct (getitem event "requestContext") as [ctx|e] eqn:E1;
      [|discriminate Hr].
    destruct (dict_get ctx "routeKey" (JStr "")) as [route|e] eqn:E2;
      [|discriminate Hr].
    destruct (dict_get ctx "connectionId" (JStr "")) as [cid|e] eqn:E3;
      [|discriminate Hr].
    destruct (dict_get event "body" (JStr "")) as [body|e] eqn:E4;
      [|discriminate Hr].
    destruct (boto3_client env (endpoint env)) as [client|e] eqn:E5;
      [|discriminate Hr].
    split; [|exists client; reflexivity].
    exists route, cid, body, ctx. auto.
  - intros ((route & cid & body & Hev) & client & Hclient).
    read_event Hev. rewrite Hclient.
    destruct (eq_str route "$connect"); [eexists; reflexivity|].
    destruct (eq_str route "$disconnect"); [eexists; reflexivity|].
    cbv zeta. destruct (post_to_connection client cid _); eexists; reflexivity.
Qed.

(** X5: whatever the event, an answer of the handler is a 200 or the
    500 [Error processing request], and the handler posts at most once. *)
Theorem lambda_handler_answers (env : Env) (event : json) :
  (forall r, fst (lambda_handler env event) = Ok r ->
     (exists body, r = response 200 body)
     \/ r = response 500 "Error processing request")
  /\ List.length (posts (snd (lambda_handler env event))) <= 1.
Proof.
  unfold lambda_handler.
  destruct (getitem event "requestContext") as [ctx|e];
    [|split; [intros r Hr; discriminate Hr | simpl; lia]].
  destruct (dict_get ctx "routeKey" (JStr "")) as [route|e];
    [|split; [intros r Hr; discriminate Hr | simpl; lia]].
  destruct (dict_get ctx "connectionId" (JStr "")) as [cid|e];
    [|split; [intros r Hr; discriminate Hr | simpl; lia]].
  destruct (dict_get event "body" (JStr "")) as [body|e];
    [|split; [intros r Hr; discriminate Hr | simpl; lia]].
  destruct (boto3_client env (endpoint env)) as [client|e];
    [|split; [intros r Hr; discriminate Hr | simpl; lia]].
  destruct (eq_str route "$connect").
  { split; [intros r Hr; injection Hr as <-; left; eexists; reflexivity
           | simpl; lia]. }
  destruct (eq_str route "$disconnect").
  { split; [intros r Hr; injection Hr as <-; left; eexists; reflexivity
           | simpl; lia]. }
  cbv zeta. destruct (post_to_connection client cid _).
  - split; [intros r Hr; injection Hr as <-; left; eexists; reflexivity
           | simpl; lia].
  - split; [intros r Hr; injection Hr as <-; right; reflexivity
           | simpl; lia].
Qed.

Lemma prefix_cons (a b : ascii) (p s : string) :
  String.prefix (String a p) (String b s) = true
  <-> a = b /\ String.prefix p s = true.
Proof.
  simpl. destruct (ascii_dec a b) as [Heq|Hne].
  - split; [intro Hp; split; assumption | intros (_ & Hp); exact Hp].
  - split; [discriminate | intros (Heq & _); contradiction].
Qed.

Lemma replace_from_cons (old new : string) (c : ascii) (rest : string) :
  replace_from old new 0 (String c rest)
  = if String.prefix old (String c rest)
    then (new ++ replace_from old new (String.length old - 1) rest)%string
    else String c (replace_from old new 0 rest).
Proof. reflexivity. Qed.

(** A text without [h] that begins the converted string began the
    original one. *)
Lemma prefix_of_converted (q s : string) :
  avoids "h" q = true ->
  String.prefix q (replace_from "wss://" "https://" 0 s) = true ->
  String.prefix q s = true.
Proof.
  revert q. induction s as [|c rest IH]; intros q Hq Hp.
  - exact Hp.
  - destruct q as [|a q']; [reflexivity|].
    simpl in Hq. apply andb_true_iff in Hq as (Ha & Hq').
    rewrite replace_from_cons in Hp.
    destruct (String.prefix "wss://" (String c rest)).
    + change ("https://" ++ replace_from "wss://" "https://"
                (String.length "wss://" - 1) rest)%string
        with (String "h" ("ttps://" ++ replace_from "wss://" "https://"
                (String.length "wss://" - 1) rest)) in Hp.
      apply prefix_cons in Hp as (-> & _).
      rewrite Ascii.eqb_refl in Ha. discriminate Ha.
    + apply prefix_cons in Hp as (-> & Hp).
      apply prefix_cons. split; [reflexivity | apply IH; assumption].
Qed.

Lemma occurs_cons_other (c : ascii) (s : string) :
  c <> "w"%char ->
  occurs "wss://" (String c s) = occurs "wss://" s.
Proof.
  intro Hne. cbn [occurs].
  destruct (String.prefix "wss://" (String c s)) eqn:E.
  - apply prefix_cons in E as (Heq & _). congruence.
  - reflexivity.
Qed.

Lemma converted_has_no_wss (k : nat) (s : string) :
  occurs "wss://" (replace_from "wss://" "https://" k s) = false.
Proof.
  revert k. induction s as [|c rest IH]; intro k.
  - reflexivity.
  - destruct k as [|k]; [|apply IH].
    rewrite replace_from_cons.
    destruct (String.prefix "wss://" (String c rest)) eqn:E.
    + change ("https://" ++ replace_from "wss://" "https://"
                (String.length "wss://" - 1) rest)%string
        with (String "h" (String "t" (String "t" (String "p" (String "s"
               (String ":" (String "/" (String "/"
                 (replace_from "wss://" "https://"
                    (String.length "wss://" - 1) rest))))))))).
      rewrite !occurs_cons_other by discriminate. apply IH.
    + cbn [occurs]. rewrite IH, orb_false_r.
      destruct (String.prefix "wss://"
                  (String c (replace_from "wss://" "https://" 0 rest))) eqn:P;
        [|reflexivity].
      apply prefix_cons in P as (<- & P).
      apply prefix_of_converted in P; [|reflexivity].
      assert (String.prefix "wss://" (String "w" rest) = true)
        by (apply prefix_cons; split; [reflexivity | exact P]).
      congruence.
Qed.

Lemma prefix_app (p s : string) : String.prefix p (p ++ s) = true.
Proof.
  induction p as [|a p IH]; [destruct s; reflexivity|].
  change (String a p ++ s)%string with (String a (p ++ s)).
  apply prefix_cons. split; [reflexivity | exact IH].
Qed.

(** X6: whatever [WEBSOCKET_ENDPOINT] holds, the endpoint handed to
    [boto3.client] contains no [wss://]; and a variable that starts with
    [wss://] gives an endpoint that starts with [https://]. *)
Theorem lambda_endpoint_is_converted (env : Env) :
  occurs "wss://" (endpoint env) = false
  /\ (forall host,
        WEBSOCKET_ENDPOINT env = Some ("wss://" ++ host)%string ->
        endpoint env
        = ("https://" ++ str_replace "wss://" "https://" host)%string).
Proof.
  split.
  - unfold endpoint, str_replace. apply converted_has_no_wss.
  - intros host Hvar. unfold endpoint, str_replace. rewrite Hvar.
    change ("wss://" ++ host)%string with (String "w" ("ss://" ++ host)).
    rewrite replace_from_cons.
    change (String "w" ("ss://" ++ host)) with ("wss://" ++ host)%string.
    rewrite prefix_app. reflexivity.
Qed.

End LambdaFacts.

(** * What every step of the session keeps *)

Section Frames.

Context {rt : PyRuntime}.

Variable R : world -> world -> Prop.
Hypothesis R_refl : forall w, R w w.
Hypothesis R_trans : forall a b c, R a b -> R b c -> R a c.

Lemma preserves_ret {A : Type} (a : A) : preserves R (ret a).
Proof. intro w. apply R_refl. Qed.

Lemma preserves_raise {A : Type} (e : exn) : preserves R (@raise A e).
Proof. intro w. apply R_refl. Qed.

Lemma preserves_lift {A : Type} (o : outcome A) : preserves R (lift o).
Proof. intro w. apply R_refl. Qed.

Lemma preserves_get_world : preserves R get_world.
Proof. intro w. apply R_refl. Qed.

Lemma preserves_bind {A B : Type} (c : M A) (k : A -> M B) :
  preserves R c -> (forall a, preserves R (k a)) -> preserves R (bind c k).
Proof.
  intros Hc Hk w. unfold bind. specialize (Hc w).
  destruct (c w) as [[a|e] w']; simpl in *.
  - eapply R_trans; [exact Hc | apply Hk].
  - exact Hc.
Qed.

Lemma preserves_try {A : Type} (c : M A) (p : exn -> bool) (h : exn -> M A) :
  preserves R c -> (forall e, preserves R (h e)) ->
  preserves R (try_except c p h).
Proof.
  intros Hc Hh w. unfold try_except. specialize (Hc w).
  destruct (c w) as [[a|e] w']; simpl in *; [exact Hc|].
  destruct (p e); [|exact Hc].
  eapply R_trans; [exact Hc | apply Hh].
Qed.

Hypothesis R_print : forall label v, preserves R (print label v).
Hypothesis R_send : forall ev, preserves R (model_send ev).
Hypothesis R_sink : forall chunk, preserves R (send_output_chunk chunk).
Hypothesis R_sleep : forall ms, preserves R (sleep ms).
Hypothesis R_future : forall f, preserves R (set_future f).
Hypothesis R_tasks : forall ts, preserves R (set_tasks ts).
Hypothesis R_outbox : forall o, preserves R (set_outbox o).

Ltac frame :=
  repeat first
    [ apply preserves_bind; [| intro]
    | apply preserves_try; [| intro]
    | apply preserves_ret | apply preserves_raise | apply preserves_lift
    | apply preserves_get_world
    | apply R_print | apply R_send | apply R_sink | apply R_sleep
    | apply R_future | apply R_tasks | apply R_outbox
    | match goal with
      | |- preserves _ (match ?x with _ => _ end) => destruct x
      | |- preserves _ (if ?x then _ else _) => destruct x
      | |- preserves _ (let (_, _) := ?x in _) => destruct x
      end ].

Lemma preserves_add_tool_call (tool_call : json) :
  preserves R (add_tool_call tool_call).
Proof. unfold add_tool_call. frame. Qed.

Lemma preserves_create_task (tool_call : json) :
  preserves R (_create_tool_call_task tool_call).
Proof. unfold _create_tool_call_task. frame. Qed.

Lemma preserves_decode_item (stream_key : string) (data_raw : json) :
  preserves R (decode_item stream_key data_raw).
Proof. unfold decode_item. frame. Qed.

Lemma preserves_on_input_mic (data : json) : preserves R (on_input_mic data).
Proof. unfold on_input_mic. frame. Qed.

Lemma preserves_on_text (data : json) : preserves R (on_text data).
Proof. unfold on_text. frame. Qed.

Lemma preserves_on_tool_outputs (data : json) :
  preserves R (on_tool_outputs data).
Proof. unfold on_tool_outputs. frame. Qed.

Lemma preserves_on_output_speaker (data : json) :
  preserves R (on_output_speaker data).
Proof.
  unfold on_output_speaker. frame; try apply preserves_add_tool_call.
Qed.

Lemma preserves_loop_body (stream_key : string) (data_raw : json) :
  preserves R (loop_body stream_key data_raw).
Proof.
  unfold loop_body. apply preserves_bind; [apply preserves_decode_item|].
  intros [k d].
  destruct (String.eqb k "input_mic"); [apply preserves_on_input_mic|].
  destruct (String.eqb k "text"); [apply preserves_on_text|].
  destruct (String.eqb k "tool_outputs"); [apply preserves_on_tool_outputs|].
  destruct (String.eqb k "output_speaker");
    [apply preserves_on_output_speaker | apply preserves_ret].
Qed.

Lemma preserves_on_trigger (tool_call : json) :
  preserves R (on_trigger tool_call).
Proof. unfold on_trigger. frame; try apply preserves_create_task. Qed.

Lemma preserves_output_iterator_step (c : completed) :
  preserves R (output_iterator_step c).
Proof.
  unfold output_iterator_step. frame; try apply preserves_on_trigger.
Qed.

Lemma preserves_output_iterator (c : completed) :
  preserves R (output_iterator c).
Proof.
  intro w. unfold output_iterator.
  destruct (outbox w); [apply R_refl|].
  pose proof (preserves_output_iterator_step c w) as Hstep.
  destruct (output_iterator_step c w) as [[[ev|]|e] w']; simpl in *;
    try exact Hstep; (eapply R_trans; [exact Hstep | apply R_outbox]).
Qed.

(** The rest of the loop, given what [output_iterator] keeps. *)
Hypothesis R_iterator : forall c, preserves R (output_iterator c).

Lemma preserves_occur (o : occurrence) : preserves R (occur o).
Proof.
  destruct o as [s | d | | c]; simpl.
  - apply preserves_loop_body.
  - apply preserves_loop_body.
  - apply preserves_bind; [apply preserves_get_world | intro w0].
    destruct (outbox w0); [|apply preserves_ret].
    apply preserves_bind; [apply R_outbox | intro].
    apply preserves_bind; [apply preserves_lift | intro].
    apply preserves_loop_body.
  - apply R_iterator.
Qed.

Lemma preserves_merged_loop (schedule : list occurrence) :
  preserves R (merged_loop schedule).
Proof.
  induction schedule as [|o rest IH]; simpl.
  - apply preserves_ret.
  - apply preserves_bind; [apply preserves_occur | intro; exact IH].
Qed.

End Frames.

Section SessionInvariants.

Context {rt : PyRuntime}.

Lemma backend_sends_app (l1 l2 : list effect) :
  backend_sends (l1 ++ l2) = backend_sends l1 ++ backend_sends l2.
Proof.
  induction l1 as [|x l1 IH]; [reflexivity|].
  destruct x; simpl; rewrite IH; reflexivity.
Qed.

Lemma sink_writes_app (l1 l2 : list effect) :
  sink_writes (l1 ++ l2) = sink_writes l1 ++ sink_writes l2.
Proof.
  induction l1 as [|x l1 IH]; [reflexivity|].
  destruct x; simpl; rewrite IH; reflexivity.
Qed.

Lemma trace_grows_refl (w : world) : trace_grows w w.
Proof. exists []. rewrite app_nil_r. reflexivity. Qed.

Lemma trace_grows_trans (a b c : world) :
  trace_grows a b -> trace_grows b c -> trace_grows a c.
Proof.
  intros (l1 & H1) (l2 & H2). exists (l1 ++ l2).
  rewrite H2, H1, app_assoc. reflexivity.
Qed.

Lemma trace_grows_emit (x : effect) : preserves trace_grows (emit x).
Proof. intro w. exists [x]. reflexivity. Qed.

(** X7: the tool registry is read-only: whatever the session goes
    through, input, backend events, dispatches, completions, the registry
    at the end is the one at the start, also when the loop ends with an
    exception. *)
Theorem registry_never_changes (schedule : list occurrence) (w : world) :
  tools_by_name (executor (snd (merged_loop schedule w)))
  = tools_by_name (executor w).
Proof.
  assert (Hrefl : forall w0, same_registry w0 w0) by reflexivity.
  assert (Htrans : forall a b c,
             same_registry a b -> same_registry b c -> same_registry a c).
  { unfold same_registry. intros a b c H1 H2. congruence. }
  apply (preserves_merged_loop same_registry Hrefl Htrans);
    try (intros; intro w0; reflexivity).
  apply (preserves_output_iterator same_registry Hrefl Htrans);
    intros; intro w0; reflexivity.
Qed.

(** The trace is only ever appended to. *)
Lemma merged_loop_trace_grows (schedule : list occurrence) (w : world) :
  trace_grows w (snd (merged_loop schedule w)).
Proof.
  assert (Hsame : forall (c : M unit),
             (forall w0, trace (snd (c w0)) = trace w0) ->
             preserves trace_grows c).
  { intros c Hc w0. exists []. rewrite Hc, app_nil_r. reflexivity. }
  apply (preserves_merged_loop trace_grows trace_grows_refl trace_grows_trans);
    try (intros; apply trace_grows_emit);
    try (intros; apply Hsame; reflexivity).
  apply (preserves_output_iterator trace_grows
           trace_grows_refl trace_grows_trans);
    intros; apply Hsame; reflexivity.
Qed.

(** X8: whatever the schedule, the first message the backend receives
    from [aconnect] is the event of type [session.update] whose [session]
    carries the agent's instructions ([null] when it has none), the
    [whisper-1] transcription setting, and one [function] definition per
    registered tool with its name, description and argument schema; it is
    received even if the session then ends with an exception. *)
Theorem session_update_is_first (agent : OpenAIVoiceReactAgent)
    (schedule : list occurrence) :
  exists rest,
    backend_sends (trace (snd (aconnect agent schedule)))
    = JObj [("type", JStr "session.update");
            ("session",
             JObj [("instructions",
                    match instructions agent with
                    | Some text => JStr text
                    | None => JNull
                    end);
                   ("input_audio_transcription",
                    JObj [("model", JStr "whisper-1")]);
                   ("tools",
                    JArr (map (fun entry =>
                                 JObj [("type", JStr "function");
                                       ("name", JStr (name (snd entry)));
                                       ("description",
                                        JStr (description (snd entry)));
                                       ("parameters",
                                        JObj [("type", JStr "object");
                                              ("properties",
                                               args (snd entry))])])
                              (tools_dict (tools agent))))])]
      :: rest.
Proof.
  unfold aconnect, bind, model_send. rewrite emit_log.
  set (w1 := log [ModelSend (session_update agent)] (initial_world agent)).
  destruct (merged_loop_trace_grows schedule w1) as (l & Hl).
  exists (backend_sends l). rewrite Hl, backend_sends_app. reflexivity.
Qed.

(** X9: the executor has no voice of its own: a pass of
    [output_iterator] sends nothing to the backend, writes nothing to the
    sink and prints nothing; its results reach them only through the
    merged loop. *)
Theorem executor_is_silent (c : completed) (w : world) :
  trace (snd (output_iterator c w)) = trace w.
Proof.
  assert (Hrefl : forall w0, same_trace w0 w0) by reflexivity.
  assert (Htrans : forall a b c0,
             same_trace a b -> same_trace b c0 -> same_trace a c0).
  { unfold same_trace. intros a b c0 H1 H2. congruence. }
  apply (preserves_output_iterator same_trace Hrefl Htrans);
    intros; intro w0; reflexivity.
Qed.

Lemma no_backend_send_emit (x : effect) :
  (forall ev, x <> ModelSend ev) -> preserves no_backend_send (emit x).
Proof.
  intros Hx w. unfold no_backend_send. simpl.
  rewrite backend_sends_app. destruct x; simpl;
    try (rewrite app_nil_r; reflexivity).
  exfalso. exact (Hx event eq_refl).
Qed.

Lemma no_sink_write_emit (x : effect) :
  (forall chunk, x <> SinkSend chunk) -> preserves no_sink_write (emit x).
Proof.
  intros Hx w. unfold no_sink_write. simpl.
  rewrite sink_writes_app. destruct x; simpl;
    try (rewrite app_nil_r; reflexivity).
  exfalso. exact (Hx chunk eq_refl).
Qed.

(** X10: a backend event is never answered to the backend by the loop
    body: for any decoded frame that is not a bare string, whatever its
    type and fields, and whether the body ends normally or raises, nothing
    is sent to the backend for it. *)
Theorem backend_event_sends_nothing_back (data : json) (w : world)
    (Hevent : forall s, data <> JStr s) :
  backend_sends (trace (snd (loop_body "output_speaker" data w)))
  = backend_sends (trace w).
Proof.
  assert (Hbody : loop_body "output_speaker" data w = on_output_speaker data w)
    by (destruct data; try reflexivity; exfalso; exact (Hevent s eq_refl)).
  rewrite Hbody.
  assert (Hrefl : forall w0, no_backend_send w0 w0) by reflexivity.
  assert (Htrans : forall a b c,
             no_backend_send a b -> no_backend_send b c -> no_backend_send a c).
  { unfold no_backend_send. intros a b c H1 H2. congruence. }
  apply (preserves_on_output_speaker no_backend_send Hrefl Htrans).
  - intros label v. apply no_backend_send_emit. discriminate.
  - intros chunk. apply no_backend_send_emit. discriminate.
  - intros f w0. reflexivity.
Qed.

(** X11: nothing that arrives on the input is written to the sink by
    the loop body, be it raw text, a structured event or JSON the body
    raises on. *)
Theorem input_never_reaches_sink (s : string) (w : world) :
  sink_writes (trace (snd (loop_body "input_mic" (JStr s) w)))
  = sink_writes (trace w).
Proof.
  destruct (json_loads s) as [d|] eqn:Hl.
  - rewrite (loop_body_input_json s d w Hl).
    assert (Hrefl : forall w0, no_sink_write w0 w0) by reflexivity.
    assert (Htrans : forall a b c,
               no_sink_write a b -> no_sink_write b c -> no_sink_write a c).
    { unfold no_sink_write. intros a b c H1 H2. congruence. }
    apply (preserves_on_input_mic no_sink_write Hrefl Htrans).
    + intros label v. apply no_sink_write_emit. discriminate.
    + intros ev. apply no_sink_write_emit. discriminate.
  - rewrite (loop_body_input_text s w Hl). simpl.
    rewrite sink_writes_app. simpl. rewrite app_nil_r. reflexivity.
Qed.

(** X12: a structured input event, JSON text that decodes to a dict
    with a ["type"], is forwarded to the backend as decoded, once, with no
    [response.create] after it and no sink write; the executor is left as
    it was. *)
Theorem input_event_forwarded_verbatim (s : string) (d t : json) (w : world)
    (Hjson : json_loads s = Some d)
    (Htype : getitem d "type" = Ok t) :
  exists l,
    loop_body "input_mic" (JStr s) w = (Ok tt, log l w)
    /\ backend_sends l = [d]
    /\ sink_writes l = [].
Proof.
  rewrite (loop_body_input_json s d w Hjson).
  unfold on_input_mic, bind, lift, print, model_send. rewrite Htype.
  destruct (eq_str t "conversation.item.create"); unfold ret;
    rewrite ?emit_log, ?log_log; eexists; repeat split; reflexivity.
Qed.

(** X13: an event whose type is in [EVENTS_TO_IGNORE] leaves no trace at
    all: the world after the loop body is the world before it. *)
Theorem ignored_events_are_silent (data : json) (t : string) (w : world)
    (Htype : getitem data "type" = Ok (JStr t))
    (Hin : In t EVENTS_TO_IGNORE) :
  loop_body "output_speaker" data w = (Ok tt, w).
Proof.
  rewrite (loop_body_output_speaker data _ w Htype).
  unfold on_output_speaker, bind at 1, lift. rewrite Htype.
  simpl in Hin.
  repeat (destruct Hin as [<- | Hin]; [reflexivity|]).
  destruct Hin.
Qed.

(** X14: the two transcript events are read by subscript: with a
    ["transcript"] field the event is only printed and the loop goes on;
    without it the body raises [KeyError] and the session ends, nothing
    having been sent or written. *)
Theorem transcript_event_needs_transcript (fields : list (string * json))
    (t : string) (w : world) (rest : list occurrence)
    (Htype : assoc "type" fields = Some (JStr t))
    (Hkind : t = "response.audio_transcript.done"
             \/ t = "conversation.item.input_audio_transcription.completed") :
  match assoc "transcript" fields with
  | Some tr =>
      exists label,
        loop_body "output_speaker" (JObj fields) w
        = (Ok tt, log [Print label tr] w)
  | None =>
      merged_loop (BackendEvent (JObj fields) :: rest) w
      = (Raise (KeyError "transcript"), w)
  end.
Proof.
  assert (Hbody : forall r,
             on_output_speaker (JObj fields) w = r ->
             loop_body "output_speaker" (JObj fields) w = r)
    by (intros r <-; reflexivity).
  destruct (assoc "transcript" fields) as [tr|] eqn:Htr.
  - destruct Hkind as [-> | ->]; eexists; apply Hbody;
      unfold on_output_speaker, bind, lift, getitem, print;
      rewrite Htype; simpl; rewrite Htr, emit_log; reflexivity.
  - apply merged_loop_raise. simpl. apply Hbody.
    destruct Hkind as [-> | ->];
      unfold on_output_speaker, bind, lift, getitem;
      rewrite Htype; simpl; rewrite Htr; reflexivity.
Qed.

(** X15: a [response.text.done] event puts its ["text"] on the sink,
    and the empty string when it has no such field; in both cases one
    sink write and no backend send. *)
Theorem text_done_goes_to_sink (fields : list (string * json)) (w : world)
    (Htype : assoc "type" fields = Some (JStr "response.text.done")) :
  exists l,
    loop_body "output_speaker" (JObj fields) w = (Ok tt, log l w)
    /\ sink_writes l
       = [match assoc "text" fields with Some text => text | None => JStr "" end]
    /\ backend_sends l = [].
Proof.
  change (loop_body "output_speaker" (JObj fields) w)
    with (on_output_speaker (JObj fields) w).
  assert (Hrun : on_output_speaker (JObj fields) w
                 = (print "response.text.done:" (JObj fields) ;;;
                    response_text <- lift (dict_get (JObj fields) "text" (JStr "")) ;;
                    send_output_chunk response_text) w).
  { unfold on_output_speaker, bind at 1, lift. cbn [getitem].
    rewrite Htype. reflexivity. }
  rewrite Hrun. unfold bind, lift, print, send_output_chunk, dict_get.
  rewrite emit_log.
  destruct (assoc "text" fields) as [text|];
    rewrite emit_log, log_log; eexists; repeat split; reflexivity.
Qed.

End SessionInvariants.

(** * Tool calls from arming to result *)

Section ToolCalls.

Context {rt : PyRuntime}.

Lemma create_task_ok (w : world) (call a : json) (n s : string)
    (tool : BaseTool) :
  getitem call "name" = Ok (JStr n) ->
  assoc n (tools_by_name (executor w)) = Some tool ->
  getitem call "arguments" = Ok (JStr s) ->
  json_loads s = Some a ->
  _create_tool_call_task call w
  = (Ok {| task_call := call; task_tool := tool; task_args := a |}, w).
Proof.
  intros Hname Htool Hargs Hdec.
  unfold _create_tool_call_task, bind, get_world, lift, try_except.
  rewrite Hname. simpl tools_get. rewrite Htool, Hargs.
  unfold loads_value. rewrite Hdec. reflexivity.
Qed.

Lemma run_tool_ok (call cid a : json) (tool : BaseTool) (r : pyobj) :
  getitem call "call_id" = Ok cid ->
  ainvoke tool a = Returns r ->
  (forall e, dumps_result r = Raise e -> e = TypeError) ->
  run_tool {| task_call := call; task_tool := tool; task_args := a |}
  = Ok (tool_result cid (result_text r)).
Proof.
  intros Hid Hret Hdumps. unfold run_tool. simpl. rewrite Hret.
  destruct r as [j | text | e text]; simpl.
  - apply function_call_output_ok. exact Hid.
  - apply function_call_output_ok. exact Hid.
  - rewrite (Hdumps e eq_refl). simpl.
    apply function_call_output_ok. exact Hid.
Qed.

Lemma nth_error_last {A : Type} (l : list A) (x : A) :
  nth_error (l ++ [x]) (List.length l) = Some x.
Proof.
  rewrite nth_error_app2 by lia. rewrite Nat.sub_diag. reflexivity.
Qed.

Lemma remove_nth_last {A : Type} (l : list A) (x : A) :
  remove_nth (List.length l) (l ++ [x]) = l.
Proof.
  unfold remove_nth.
  rewrite firstn_app, firstn_all, Nat.sub_diag, skipn_all2
    by (rewrite length_app; simpl; lia).
  simpl. rewrite !app_nil_r. reflexivity.
Qed.

(** What the merged loop does when a running task completes with a
    result and the loop takes it. *)
Lemma completed_task_is_forwarded (w : world) (i : nat) (t : tool_task)
    (cid : json) (output : string) (rest : list occurrence) :
  outbox w = None ->
  nth_error (tasks w) i = Some t ->
  run_tool t = Ok (tool_result cid output) ->
  exists l,
    merged_loop (ExecutorRuns (ToolTask i) :: ToolOutput :: rest) w
    = merged_loop rest (log l (snd (set_tasks (remove_nth i (tasks w)) w)))
    /\ backend_sends l = [tool_result cid output; tool_response_create].
Proof.
  intros Hfree Hnth Hrun.
  set (w1 := snd (set_tasks (remove_nth i (tasks w)) w)).
  assert (Hiter : output_iterator (ToolTask i) w
                  = (Ok tt, snd (set_outbox
                       (Some (Ok (tool_result cid output))) w1))).
  { unfold output_iterator. rewrite Hfree.
    unfold output_iterator_step, bind at 1, get_world. rewrite Hnth.
    unfold bind, lift. simpl set_tasks. rewrite Hrun. reflexivity. }
  destruct (on_tool_outputs_result cid output w1) as (sink & Hout & Hsink).
  eexists. split.
  - rewrite (merged_loop_ok (ExecutorRuns (ToolTask i)) (ToolOutput :: rest)
               w _ Hiter).
    apply merged_loop_ok.
    rewrite occur_tool_output_item by exact Hfree.
    rewrite loop_body_tool_outputs by reflexivity.
    exact Hout.
  - destruct Hsink as [[-> _] | [-> _]]; reflexivity.
Qed.

(** A returned value on which [json.dumps] raises anything but
    [TypeError] is not turned into text: the exception leaves [run_tool]
    and, as for a raising tool, ends the merged loop. *)
Lemma undumpable_result_leaves_loop (w : world) (i : nat) (t : tool_task)
    (r : pyobj) (e : exn) (rest : list occurrence) :
  outbox w = None ->
  nth_error (tasks w) i = Some t ->
  ainvoke (task_tool t) (task_args t) = Returns r ->
  dumps_result r = Raise e ->
  is_TypeError e = false ->
  merged_loop (ExecutorRuns (ToolTask i) :: ToolOutput :: rest) w
  = (Raise e, snd (set_tasks (remove_nth i (tasks w)) w)).
Proof.
  intros Hfree Hnth Hret Hdumps Hother.
  set (w1 := snd (set_tasks (remove_nth i (tasks w)) w)).
  assert (Hiter : output_iterator (ToolTask i) w
                  = (Ok tt, snd (set_outbox (Some (Raise e)) w1))).
  { unfold output_iterator. rewrite Hfree.
    unfold output_iterator_step, bind at 1, get_world. rewrite Hnth.
    unfold bind, lift, run_tool. rewrite Hret, Hdumps, Hother. reflexivity. }
  rewrite (merged_loop_ok (ExecutorRuns (ToolTask i)) (ToolOutput :: rest)
             w _ Hiter).
  apply merged_loop_raise.
  apply occur_tool_output_raise. exact Hfree.
Qed.

(** X16: the whole way of a well-formed call.  On an idle executor, the
    backend's [response.function_call_arguments.done] for a registered
    tool with JSON arguments is armed, dispatched and run; when the tool
    returns a value that [json.dumps] accepts, or rejects with
    [TypeError], the backend receives one tool result carrying the call's
    own [call_id] and the returned value as text, then the event of type
    [response.create] with an empty [response]; the executor is idle again
    and the loop goes on. *)
Theorem tool_call_round_trip (w : world) (call cid a : json) (n s : string)
    (tool : BaseTool) (r : pyobj) (rest : list occurrence)
    (Hidle : _trigger_future (executor w) = None)
    (Hfree : outbox w = None)
    (Htype : getitem call "type"
             = Ok (JStr "response.function_call_arguments.done"))
    (Hid : getitem call "call_id" = Ok cid)
    (Hname : getitem call "name" = Ok (JStr n))
    (Htool : assoc n (tools_by_name (executor w)) = Some tool)
    (Hargs : getitem call "arguments" = Ok (JStr s))
    (Hdec : json_loads s = Some a)
    (Hret : ainvoke tool a = Returns r)
    (Hdumps : forall e, dumps_result r = Raise e -> e = TypeError) :
  exists l,
    merged_loop (BackendEvent call
                 :: ExecutorRuns TriggerTask
                 :: ExecutorRuns (ToolTask (List.length (tasks w)))
                 :: ToolOutput :: rest) w
    = merged_loop rest (log l w)
    /\ backend_sends l
       = [JObj [("type", JStr "conversation.item.create");
                ("item", JObj [("id", cid);
                               ("call_id", cid);
                               ("type", JStr "function_call_output");
                               ("output",
                                JStr (match r with
                                      | PJson j => json_dumps j
                                      | PObject text => text
                                      | PUndumpable _ text => text
                                      end))])];
          JObj [("type", JStr "response.create"); ("response", JObj [])]].
Proof.
  set (task := {| task_call := call; task_tool := tool; task_args := a |}).
  (* armed *)
  set (w1 := snd (set_future (Some call) (log [Print "function_call:" call] w))).
  assert (Harm : occur (BackendEvent call) w = (Ok tt, w1)).
  { simpl. rewrite (loop_body_output_speaker call _ w Htype).
    unfold on_output_speaker, bind at 1, lift. rewrite Htype. simpl.
    unfold bind, print. rewrite emit_log.
    apply add_tool_call_idle. exact Hidle. }
  (* dispatched *)
  set (w2 := snd (set_tasks (tasks w ++ [task])
                    (snd (set_future None w1)))).
  assert (Hdispatch : occur (ExecutorRuns TriggerTask) w1 = (Ok tt, w2)).
  { simpl. unfold output_iterator.
    replace (outbox w1) with (@None (outcome json)) by (symmetry; exact Hfree).
    unfold output_iterator_step, bind at 1, get_world.
    replace (_trigger_future (executor w1)) with (Some call) by reflexivity.
    rewrite on_trigger_spec.
    rewrite (create_task_ok (snd (set_future None w1)) call a n s tool
               Hname Htool Hargs Hdec).
    reflexivity. }
  (* completed and taken *)
  destruct (completed_task_is_forwarded w2 (List.length (tasks w)) task cid
              (result_text r) rest) as (l & Hdone & Hsends).
  { exact Hfree. }
  { apply nth_error_last. }
  { apply run_tool_ok; assumption. }
  (* [result_text r] is the text of the statement *)
  exists (Print "function_call:" call :: l). split.
  - rewrite (merged_loop_ok _ _ w w1 Harm).
    rewrite (merged_loop_ok _ _ w1 w2 Hdispatch).
    rewrite Hdone. f_equal.
    unfold w2, w1, log. simpl. rewrite remove_nth_last.
    destruct w as [[tools fut] ts ob tr]. simpl in *. subst fut.
    rewrite <- app_assoc. reflexivity.
  - exact Hsends.
Qed.

(** X17: when two tool tasks have both finished, [output_iterator] may
    handle them in either order ([done] is a set), and the backend
    receives the results in the order they are handled, whichever call
    was started first: each result is followed by the event of type
    [response.create] with an empty [response], and either way both tasks
    have left the running set. *)
Theorem results_follow_handling_order (w : world) (ta tb : tool_task)
    (ca cb : json) (oa ob : string)
    (Hfree : outbox w = None)
    (Htasks : tasks w = [ta; tb])
    (Ha : run_tool ta = Ok (tool_result ca oa))
    (Hb : run_tool tb = Ok (tool_result cb ob)) :
  let request := JObj [("type", JStr "response.create"); ("response", JObj [])] in
  (exists w',
     merged_loop [ExecutorRuns (ToolTask 1); ToolOutput;
                  ExecutorRuns (ToolTask 0); ToolOutput] w = (Ok tt, w')
     /\ backend_sends (trace w')
        = backend_sends (trace w)
          ++ [tool_result cb ob; request; tool_result ca oa; request]
     /\ tasks w' = [])
  /\ (exists w',
        merged_loop [ExecutorRuns (ToolTask 0); ToolOutput;
                     ExecutorRuns (ToolTask 0); ToolOutput] w = (Ok tt, w')
        /\ backend_sends (trace w')
           = backend_sends (trace w)
             ++ [tool_result ca oa; request; tool_result cb ob; request]
        /\ tasks w' = []).
Proof.
  intro request. unfold request. split.
  - destruct (completed_task_is_forwarded w 1 tb cb ob
                [ExecutorRuns (ToolTask 0); ToolOutput] Hfree)
      as (l1 & H1 & S1); [rewrite Htasks; reflexivity | exact Hb |].
    rewrite Htasks in H1. cbn [remove_nth firstn skipn app] in H1.
    destruct (completed_task_is_forwarded
                (log l1 (snd (set_tasks [ta] w))) 0 ta ca oa [] Hfree)
      as (l2 & H2 & S2); [reflexivity | exact Ha |].
    eexists. split; [rewrite H1, H2; reflexivity|].
    split; [|reflexivity].
    simpl. rewrite !backend_sends_app, S1, S2, <- app_assoc. reflexivity.
  - destruct (completed_task_is_forwarded w 0 ta ca oa
                [ExecutorRuns (ToolTask 0); ToolOutput] Hfree)
      as (l1 & H1 & S1); [rewrite Htasks; reflexivity | exact Ha |].
    rewrite Htasks in H1. cbn [remove_nth firstn skipn app] in H1.
    destruct (completed_task_is_forwarded
                (log l1 (snd (set_tasks [tb] w))) 0 tb cb ob [] Hfree)
      as (l2 & H2 & S2); [reflexivity | exact Hb |].
    eexists. split; [rewrite H1, H2; reflexivity|].
    split; [|reflexivity].
    simpl. rewrite !backend_sends_app, S1, S2, <- app_assoc. reflexivity.
Qed.

(** A dispatch that leaves [output_iterator] with an exception ends the
    merged loop with it when the loop takes the item. *)
Lemma dispatch_raises (w : world) (call : json) (e : exn)
    (rest : list occurrence) :
  _trigger_future (executor w) = Some call ->
  outbox w = None ->
  on_trigger call w = (Raise e, snd (set_future None w)) ->
  merged_loop (ExecutorRuns TriggerTask :: ToolOutput :: rest) w
  = (Raise e, snd (set_future None w)).
Proof.
  intros Harmed Hfree Hon.
  assert (Hiter : output_iterator TriggerTask w
                  = (Ok tt, snd (set_outbox (Some (Raise e))
                                   (snd (set_future None w))))).
  { unfold output_iterator. rewrite Hfree.
    unfold output_iterator_step, bind, get_world. rewrite Harmed, Hon.
    reflexivity. }
  rewrite (merged_loop_ok (ExecutorRuns TriggerTask) (ToolOutput :: rest)
             w _ Hiter).
  apply merged_loop_raise. apply occur_tool_output_raise. exact Hfree.
Qed.

(** X18: the arguments of a call must be text.  When the armed call
    names a registered tool but its ["arguments"] is any value other than
    a string, an object already decoded for instance, [json.loads] raises
    [TypeError], which the [except json.JSONDecodeError] and the
    [except ValueError] both let through: no error item is produced and
    the session ends with the [TypeError]. *)
Theorem arguments_must_be_text (w : world) (call v : json) (n : string)
    (tool : BaseTool) (rest : list occurrence)
    (Harmed : _trigger_future (executor w) = Some call)
    (Hfree : outbox w = None)
    (Hname : getitem call "name" = Ok (JStr n))
    (Htool : assoc n (tools_by_name (executor w)) = Some tool)
    (Hargs : getitem call "arguments" = Ok v)
    (Htext : forall s, v <> JStr s) :
  merged_loop (ExecutorRuns TriggerTask :: ToolOutput :: rest) w
  = (Raise TypeError, snd (set_future None w))
  /\ backend_sends (trace (snd (set_future None w))) = backend_sends (trace w).
Proof.
  split; [|reflexivity].
  apply dispatch_raises with (call := call); [exact Harmed | exact Hfree |].
  rewrite on_trigger_spec.
  assert (Hcreate : _create_tool_call_task call (snd (set_future None w))
                    = (Raise TypeError, snd (set_future None w))).
  { unfold _create_tool_call_task, bind, get_world, lift, try_except.
    rewrite Hname. simpl tools_get. simpl tools_by_name.
    rewrite Htool, Hargs.
    destruct v; try reflexivity. exfalso. exact (Htext s eq_refl). }
  rewrite Hcreate. reflexivity.
Qed.

(** X19: the error item itself needs the call's [call_id].  When the
    armed call names no registered tool and has no ["call_id"], building
    the error item raises [KeyError], inside the [except] branch: the
    session ends with it and the backend is told nothing. *)
Theorem error_item_needs_call_id (w : world) (fields : list (string * json))
    (n : string) (rest : list occurrence)
    (Harmed : _trigger_future (executor w) = Some (JObj fields))
    (Hfree : outbox w = None)
    (Hname : assoc "name" fields = Some (JStr n))
    (Hunknown : assoc n (tools_by_name (executor w)) = None)
    (Hnoid : assoc "call_id" fields = None) :
  merged_loop (ExecutorRuns TriggerTask :: ToolOutput :: rest) w
  = (Raise (KeyError "call_id"), snd (set_future None w)).
Proof.
  apply dispatch_raises with (call := JObj fields);
    [exact Harmed | exact Hfree |].
  rewrite on_trigger_spec.
  destruct (create_task_bad (snd (set_future None w)) (JObj fields) n)
    as (msg & Hcreate).
  { simpl. rewrite Hname. reflexivity. }
  { left. exact Hunknown. }
  rewrite Hcreate. cbn [fst is_ValueError].
  unfold function_call_output, getitem. rewrite Hnoid. reflexivity.
Qed.

End ToolCalls.

(** * The registry, the transport and the sample server *)

Section RegistryFacts.

Lemma assoc_dict_set {A : Type} (k n : string) (v : A)
    (d : list (string * A)) :
  assoc n (dict_set k v d) = if String.eqb n k then Some v else assoc n d.
Proof.
  induction d as [|[k' v'] d IH]; simpl; [reflexivity|].
  destruct (String.eqb k k') eqn:Ek; simpl.
  - apply String.eqb_eq in Ek. subst k'.
    destruct (String.eqb n k); reflexivity.
  - rewrite IH. destruct (String.eqb n k') eqn:En; [|reflexivity].
    apply String.eqb_eq in En. subst k'.
    rewrite String.eqb_sym, Ek. reflexivity.
Qed.

Lemma keys_dict_set {A : Type} (k x : string) (v : A)
    (d : list (string * A)) :
  In x (map fst (dict_set k v d)) <-> x = k \/ In x (map fst d).
Proof.
  induction d as [|[k' v'] d IH]; simpl.
  - split; [intros [H | []]; left; congruence | intros [H | []]; left; congruence].
  - destruct (String.eqb k k') eqn:Ek; simpl.
    + apply String.eqb_eq in Ek. subst k'. intuition congruence.
    + rewrite IH. intuition congruence.
Qed.

Lemma nodup_dict_set {A : Type} (k : string) (v : A) (d : list (string * A)) :
  NoDup (map fst d) -> NoDup (map fst (dict_set k v d)).
Proof.
  induction d as [|[k' v'] d IH]; simpl; intro Hnd.
  - constructor; [intros [] | constructor].
  - inversion Hnd as [|? ? Hnot Hnd']; subst.
    destruct (String.eqb k k') eqn:Ek; simpl.
    + apply String.eqb_eq in Ek. subst k'. constructor; assumption.
    + constructor; [|apply IH; exact Hnd'].
      intro Hin. apply keys_dict_set in Hin as [Heq | Hin].
      * subst k'. rewrite String.eqb_refl in Ek. discriminate Ek.
      * exact (Hnot Hin).
Qed.

Lemma find_snoc {A : Type} (p : A -> bool) (l : list A) (x : A) :
  find p (l ++ [x])
  = match find p l with
    | Some y => Some y
    | None => if p x then Some x else None
    end.
Proof.
  induction l as [|y l IH]; simpl; [reflexivity|].
  destruct (p y); [reflexivity | exact IH].
Qed.

Lemma registry_fold (ts : list BaseTool) (d : list (string * BaseTool))
    (n : string) :
  assoc n (fold_left (fun d tool => dict_set (name tool) tool d) ts d)
  = match find (fun t => String.eqb (name t) n) (rev ts) with
    | Some t => Some t
    | None => assoc n d
    end.
Proof.
  revert d. induction ts as [|t ts IH]; intro d; simpl; [reflexivity|].
  rewrite IH, find_snoc.
  destruct (find (fun t0 => String.eqb (name t0) n) (rev ts));
    [reflexivity|].
  rewrite assoc_dict_set, String.eqb_sym.
  destruct (String.eqb (name t) n); reflexivity.
Qed.

(** X20: the registry built from the agent's tools answers a name with
    the last tool given under that name, and with nothing for a name no
    tool has; what it answers always bears the name asked for. *)
Theorem registry_last_tool_wins (ts : list BaseTool) (n : string) :
  assoc n (tools_dict (Some ts))
  = find (fun t => String.eqb (name t) n) (rev ts)
  /\ (forall t, assoc n (tools_dict (Some ts)) = Some t ->
        name t = n /\ In t ts)
  /\ assoc n (tools_dict None) = None.
Proof.
  assert (Hfind : assoc n (tools_dict (Some ts))
                  = find (fun t => String.eqb (name t) n) (rev ts)).
  { unfold tools_dict. rewrite registry_fold.
    destruct (find _ (rev ts)); reflexivity. }
  split; [exact Hfind|]. split; [|reflexivity].
  intros t Ht. rewrite Hfind in Ht.
  apply find_some in Ht as (Hin & Hname).
  split; [apply String.eqb_eq; exact Hname | apply in_rev; exact Hin].
Qed.

Lemma registry_keys_are_names (ts : list BaseTool)
    (d : list (string * BaseTool)) :
  (forall k t, In (k, t) d -> name t = k) ->
  forall k t,
    In (k, t) (fold_left (fun d tool => dict_set (name tool) tool d) ts d) ->
    name t = k.
Proof.
  revert d. induction ts as [|tool ts IH]; intros d Hd; [exact Hd|].
  simpl. apply IH. clear IH.
  induction d as [|[k' t'] d IHd]; simpl.
  - intros k t [Heq | []]. injection Heq as <- <-. reflexivity.
  - destruct (String.eqb (name tool) k') eqn:Ek; intros k t [Heq | Hin].
    + injection Heq as <- <-. reflexivity.
    + apply Hd. right. exact Hin.
    + apply Hd. left. exact Heq.
    + apply IHd; [|exact Hin]. intros k0 t0 H0. apply Hd. right. exact H0.
Qed.

Lemma registry_nodup (l : list BaseTool) (d : list (string * BaseTool)) :
  NoDup (map fst d) ->
  NoDup (map fst (fold_left
           (fun d tool => dict_set (name tool) tool d) l d))
  /\ (forall n,
        In n (map fst (fold_left
                (fun d tool => dict_set (name tool) tool d) l d))
        <-> In n (map fst d) \/ exists t, In t l /\ name t = n).
Proof.
  revert d. induction l as [|t l IH]; intros d Hd; simpl.
  - split; [exact Hd|]. intro n. split; [auto|].
    intros [H | (t & [] & _)]. exact H.
  - destruct (IH (dict_set (name t) t d) (nodup_dict_set _ _ _ Hd))
      as (Hnd & Hkeys).
    split; [exact Hnd|]. intro n. rewrite Hkeys, keys_dict_set.
    split.
    + intros [[Heq | Hin] | (t' & Hin & Hn)].
      * right. exists t. split; [left; reflexivity | congruence].
      * left. exact Hin.
      * right. exists t'. split; [right; exact Hin | exact Hn].
    + intros [Hin | (t' & [Heq | Hin] & Hn)].
      * left. right. exact Hin.
      * left. left. congruence.
      * right. exists t'. split; assumption.
Qed.

Lemma advertised_names (d : list (string * BaseTool)) :
  (forall k t, In (k, t) d -> name t = k) ->
  map (fun x => getitem x "name") (map (fun kv => tool_def (snd kv)) d)
  = map (fun n => Ok (JStr n)) (map fst d).
Proof.
  induction d as [|[k t] d IH]; intro Hnames; [reflexivity|].
  simpl. rewrite (Hnames k t (or_introl eq_refl)). f_equal.
  apply IH. intros k0 t0 H0. apply Hnames. right. exact H0.
Qed.

(** X21: the registry holds each name once, and exactly the names of
    the agent's tools; and the [tools] array of the [session.update] the
    agent sends has one definition per registry entry, in the same order,
    each under its entry's name: one definition per name, however many
    tools share it. *)
Theorem registry_names_are_unique (agent : OpenAIVoiceReactAgent) :
  let names := map fst (tools_dict (tools agent)) in
  NoDup names
  /\ (forall n,
        In n names
        <-> exists t,
              In t (match tools agent with Some l => l | None => [] end)
              /\ name t = n)
  /\ exists session definitions,
       getitem (session_update agent) "session" = Ok session
       /\ getitem session "tools" = Ok (JArr definitions)
       /\ map (fun d => getitem d "name") definitions
          = map (fun n => Ok (JStr n)) names.
Proof.
  intro names. subst names.
  set (l := match tools agent with Some l => l | None => [] end).
  assert (E : tools_dict (tools agent)
              = fold_left (fun d tool => dict_set (name tool) tool d) l [])
    by reflexivity.
  destruct (registry_nodup l [] (NoDup_nil _)) as (Hnd & Hkeys).
  rewrite <- E in Hnd, Hkeys.
  split; [exact Hnd|]. split.
  - intro n. rewrite Hkeys. simpl. tauto.
  - eexists. eexists. split; [reflexivity|]. split; [reflexivity|].
    apply advertised_names. rewrite E.
    apply registry_keys_are_names. intros k t [].
Qed.

End RegistryFacts.

Section TransportFacts.

Context {rt : PyRuntime}.

(** X22: a backend frame that is not JSON ends the session with the
    decoder's exception before anything is done with it, while the same
    text arriving on the input is accepted as raw text. *)
Theorem undecodable_backend_frame_ends_session (raw : string) (w : world)
    (Hraw : json_loads raw = None) :
  backend_frame raw w = (Raise JSONDecodeError, w)
  /\ exists w', loop_body "input_mic" (JStr raw) w = (Ok tt, w').
Proof.
  split.
  - unfold backend_frame, bind, lift, event_stream, loads_value.
    rewrite Hraw. reflexivity.
  - eexists. apply loop_body_input_text. exact Hraw.
Qed.

(** X23: a backend frame that is a JSON string whose content is not
    JSON is taken by the loop body for raw text input: the content is
    wrapped in a [conversation.item.create] event as a [message] of role
    [user] and sent back to the backend, followed by a [response.create]
    with text modality and the instruction to respond concisely. *)
Theorem string_frame_is_taken_as_user_text (raw s : string) (w : world)
    (Hframe : json_loads raw = Some (JStr s))
    (Htext : json_loads s = None) :
  let item :=
    JObj [("type", JStr "conversation.item.create");
          ("item", JObj [("id", JStr "text_input");
                         ("type", JStr "message");
                         ("role", JStr "user");
                         ("content", JArr [JObj [("type", JStr "input_text");
                                                 ("text", JStr s)]])])] in
  let request :=
    JObj [("type", JStr "response.create");
          ("response", JObj [("modalities", JArr [JStr "text"]);
                             ("instructions",
                              JStr "Please respond concisely.")])] in
  exists l,
    backend_frame raw w = (Ok tt, log l w)
    /\ backend_sends l = [item; request]
    /\ sink_writes l = [].
Proof.
  intros item request. exists (text_input_effects s).
  split; [|split; reflexivity].
  unfold backend_frame, bind at 1, lift, event_stream, loads_value.
  rewrite Hframe.
  unfold loop_body, decode_item, try_except, bind, lift, loads_value.
  rewrite Htext.
  change (on_text (text_input_item (JStr s))
            (log [Print "Received raw text input:" (JStr s)] w)
          = (Ok tt, log (text_input_effects s) w)).
  unfold on_text, bind, print, model_send, sleep.
  rewrite !emit_log, !log_log. reflexivity.
Qed.

Lemma create_task_needs_a_tool (w : world) (call : json) :
  tools_by_name (executor w) = [] ->
  forall t, fst (_create_tool_call_task call w) <> Ok t.
Proof.
  intros Hnone t.
  unfold _create_tool_call_task, bind, get_world, lift, raise.
  destruct (getitem call "name") as [key|e]; [|discriminate].
  rewrite Hnone.
  destruct key; simpl; try discriminate;
    destruct (getitem call "name"); discriminate.
Qed.

Lemma no_tool_runs_iterator (c : completed) :
  preserves no_tool_runs (output_iterator c).
Proof.
  intros w Htools Htasks. unfold output_iterator.
  destruct (outbox w); [split; assumption|].
  unfold output_iterator_step, bind, get_world.
  destruct c as [|i].
  - destruct (_trigger_future (executor w)) as [call|];
      [|unfold ret; simpl; split; assumption].
    rewrite on_trigger_spec.
    pose proof (create_task_needs_a_tool (snd (set_future None w)) call Htools)
      as Hno.
    destruct (fst (_create_tool_call_task call (snd (set_future None w))))
      as [t|e]; [exfalso; exact (Hno t eq_refl)|].
    destruct (is_ValueError e);
      [destruct (function_call_output call _)|]; simpl; split; assumption.
  - rewrite Htasks. destruct i; unfold ret; simpl; split; assumption.
Qed.

(** X24: the sample server registers no tool, so whatever the browser
    and the backend send, in whatever order, no tool task ever runs in
    its session and its registry stays empty. *)
Theorem sample_server_runs_no_tool (schedule : list occurrence) :
  tasks (snd (websocket_endpoint schedule)) = []
  /\ tools_by_name (executor (snd (websocket_endpoint schedule))) = [].
Proof.
  assert (Hrefl : forall w0, no_tool_runs w0 w0)
    by (intros w0 H1 H2; split; assumption).
  assert (Htrans : forall a b c,
             no_tool_runs a b -> no_tool_runs b c -> no_tool_runs a c).
  { intros a b c H1 H2 Ha1 Ha2. destruct (H1 Ha1 Ha2) as (Hb1 & Hb2).
    exact (H2 Hb1 Hb2). }
  assert (Hkeep : forall (c : M unit),
             (forall w0, executor (snd (c w0)) = executor w0
                         /\ tasks (snd (c w0)) = tasks w0) ->
             preserves no_tool_runs c).
  { intros c Hc w0 H1 H2. destruct (Hc w0) as (He & Ht).
    rewrite He, Ht. split; assumption. }
  unfold websocket_endpoint, aconnect, bind, model_send. rewrite emit_log.
  assert (H : no_tool_runs
                (log [ModelSend (session_update endpoint_agent)]
                   (initial_world endpoint_agent))
                (snd (merged_loop schedule
                   (log [ModelSend (session_update endpoint_agent)]
                      (initial_world endpoint_agent))))).
  { apply (preserves_merged_loop no_tool_runs Hrefl Htrans);
      try (intros; apply Hkeep; intro w0; split; reflexivity).
    - intros f w0 H1 H2. split; assumption.
    - apply no_tool_runs_iterator. }
  destruct (H eq_refl eq_refl) as (Htools & Htasks).
  split; assumption.
Qed.

End TransportFacts.

(** * The added properties on concrete inputs *)

Section MoreConcrete.

Import Demo LambdaDemo ExecutorDemo.

#[local] Existing Instance MiniJson.runtime.

Lemma lambda_connect_disconnect_post_nothing_witness :
  fst (Lambda.lambda_handler (env ok_client) (event "$disconnect" "bye"))
    = Ok (Lambda.response 200 "Disconnected")
  /\ Lambda.posts
       (snd (Lambda.lambda_handler (env ok_client) (event "$disconnect" "bye")))
     = [].
Proof.
  apply (lambda_connect_disconnect_post_nothing (env ok_client)
           (event "$disconnect" "bye") (JStr "conn-1") (JStr "bye")
           "$disconnect" ok_client).
  - right. reflexivity.
  - eexists. repeat split; reflexivity.
  - reflexivity.
Defined.

Lemma lambda_echo_round_trip_witness :
  fst (Lambda.lambda_handler (env ok_client) (event "sendmessage" "hi"))
    = Ok (Lambda.response 200 "Echo: hi")
  /\ Lambda.posts
       (snd (Lambda.lambda_handler (env ok_client) (event "sendmessage" "hi")))
     = [(JStr "conn-1", "Echo: hi")].
Proof.
  apply (lambda_echo_round_trip (env ok_client) (event "sendmessage" "hi")
           (JStr "sendmessage") (JStr "conn-1") (JStr "hi") ok_client).
  - eexists. repeat split; reflexivity.
  - split; discriminate.
  - reflexivity.
  - reflexivity.
Defined.

Lemma lambda_post_failure_is_500_witness :
  fst (Lambda.lambda_handler (env gone_client) (event "sendmessage" "hi"))
    = Ok (Lambda.response 500 "Error processing request")
  /\ Lambda.posts
       (snd (Lambda.lambda_handler (env gone_client) (event "sendmessage" "hi")))
     = [(JStr "conn-1", "Echo: hi")].
Proof.
  apply (lambda_post_failure_is_500 (env gone_client)
           (event "sendmessage" "hi") (JStr "sendmessage") (JStr "conn-1")
           (JStr "hi") gone_client (ToolFailure "GoneException")).
  - eexists. repeat split; reflexivity.
  - split; discriminate.
  - reflexivity.
  - reflexivity.
Defined.

Lemma lambda_endpoint_is_converted_witness :
  occurs "wss://" (Lambda.endpoint (env ok_client)) = false
  /\ Lambda.endpoint (env ok_client)
     = "https://abc123.execute-api.us-east-1.amazonaws.com/prod".
Proof.
  destruct (lambda_endpoint_is_converted (env ok_client)) as (Hnone & Hconv).
  split; [exact Hnone|].
  rewrite (Hconv "abc123.execute-api.us-east-1.amazonaws.com/prod" eq_refl).
  vm_compute. reflexivity.
Defined.

Lemma backend_event_sends_nothing_back_witness :
  backend_sends
    (trace (snd (loop_body "output_speaker"
                   (JObj [("type", JStr "error"); ("code", JInt 7)]) idle)))
  = backend_sends (trace idle).
Proof.
  apply (backend_event_sends_nothing_back
           (JObj [("type", JStr "error"); ("code", JInt 7)]) idle).
  intros s Hs. discriminate Hs.
Defined.

Lemma input_event_forwarded_verbatim_witness :
  exists l,
    loop_body "input_mic"
      (JStr ("{" ++ MiniJson.q "type" ++ ": "
                 ++ MiniJson.q "input_audio_buffer.commit" ++ "}")) idle
    = (Ok tt, log l idle)
    /\ backend_sends l = [JObj [("type", JStr "input_audio_buffer.commit")]]
    /\ sink_writes l = [].
Proof.
  apply (input_event_forwarded_verbatim
           ("{" ++ MiniJson.q "type" ++ ": "
                ++ MiniJson.q "input_audio_buffer.commit" ++ "}")
           (JObj [("type", JStr "input_audio_buffer.commit")])
           (JStr "input_audio_buffer.commit") idle).
  - vm_compute. reflexivity.
  - reflexivity.
Defined.

Lemma ignored_events_are_silent_witness :
  loop_body "output_speaker" (JObj [("type", JStr "session.created")]) idle
  = (Ok tt, idle).
Proof.
  apply (ignored_events_are_silent (JObj [("type", JStr "session.created")])
           "session.created" idle).
  - reflexivity.
  - do 8 right. left. reflexivity.
Defined.

Lemma transcript_event_needs_transcript_witness :
  merged_loop
    [BackendEvent (JObj [("type", JStr "response.audio_transcript.done")]);
     InputItem "hello"] idle
  = (Raise (KeyError "transcript"), idle).
Proof.
  apply (transcript_event_needs_transcript
           [("type", JStr "response.audio_transcript.done")]
           "response.audio_transcript.done" idle [InputItem "hello"]).
  - reflexivity.
  - left. reflexivity.
Defined.

Lemma text_done_goes_to_sink_witness :
  exists l,
    loop_body "output_speaker"
      (JObj [("type", JStr "response.text.done")]) idle
    = (Ok tt, log l idle)
    /\ sink_writes l = [JStr ""]
    /\ backend_sends l = [].
Proof.
  apply (text_done_goes_to_sink [("type", JStr "response.text.done")] idle).
  reflexivity.
Defined.

Lemma tool_call_round_trip_witness :
  exists l,
    merged_loop [BackendEvent (call "c1" "echo" "[1, 2]");
                 ExecutorRuns TriggerTask;
                 ExecutorRuns (ToolTask 0);
                 ToolOutput;
                 InputItem "hello"] idle
    = merged_loop [InputItem "hello"] (log l idle)
    /\ backend_sends l
       = [JObj [("type", JStr "conversation.item.create");
                ("item", JObj [("id", JStr "c1");
                               ("call_id", JStr "c1");
                               ("type", JStr "function_call_output");
                               ("output", JStr "[1, 2]")])];
          JObj [("type", JStr "response.create"); ("response", JObj [])]].
Proof.
  assert (Hdumps : forall e,
             dumps_result (PJson (JArr [JInt 1; JInt 2])) = Raise e ->
             e = TypeError)
    by (intros e He; discriminate He).
  exact (tool_call_round_trip idle (call "c1" "echo" "[1, 2]") (JStr "c1")
           (JArr [JInt 1; JInt 2]) "echo" "[1, 2]" echo
           (PJson (JArr [JInt 1; JInt 2])) [InputItem "hello"]
           eq_refl eq_refl eq_refl eq_refl eq_refl eq_refl eq_refl eq_refl
           eq_refl Hdumps).
Defined.

Lemma results_follow_handling_order_witness :
  (exists w',
     merged_loop [ExecutorRuns (ToolTask 1); ToolOutput;
                  ExecutorRuns (ToolTask 0); ToolOutput] running = (Ok tt, w')
     /\ backend_sends (trace w')
        = backend_sends (trace running)
          ++ [tool_result (JStr "b") "2";
              JObj [("type", JStr "response.create"); ("response", JObj [])];
              tool_result (JStr "a") "1";
              JObj [("type", JStr "response.create"); ("response", JObj [])]]
     /\ tasks w' = [])
  /\ (exists w',
        merged_loop [ExecutorRuns (ToolTask 0); ToolOutput;
                     ExecutorRuns (ToolTask 0); ToolOutput] running = (Ok tt, w')
        /\ backend_sends (trace w')
           = backend_sends (trace running)
             ++ [tool_result (JStr "a") "1";
                 JObj [("type", JStr "response.create"); ("response", JObj [])];
                 tool_result (JStr "b") "2";
                 JObj [("type", JStr "response.create"); ("response", JObj [])]]
        /\ tasks w' = []).
Proof.
  apply (results_follow_handling_order running task_a task_b
           (JStr "a") (JStr "b") "1" "2");
    try reflexivity; vm_compute; reflexivity.
Defined.

Lemma arguments_must_be_text_witness :
  merged_loop [ExecutorRuns TriggerTask; ToolOutput; InputItem "hello"]
    (armed object_call)
  = (Raise TypeError, snd (set_future None (armed object_call)))
  /\ backend_sends (trace (snd (set_future None (armed object_call))))
     = backend_sends (trace (armed object_call)).
Proof.
  apply (arguments_must_be_text (armed object_call) object_call (JObj [])
           "echo" echo [InputItem "hello"]);
    try reflexivity.
  intros s Hs. discriminate Hs.
Defined.

Lemma error_item_needs_call_id_witness :
  merged_loop [ExecutorRuns TriggerTask; ToolOutput; InputItem "hello"]
    (armed (JObj anonymous_call))
  = (Raise (KeyError "call_id"),
     snd (set_future None (armed (JObj anonymous_call)))).
Proof.
  apply (error_item_needs_call_id (armed (JObj anonymous_call)) anonymous_call
           "nosuch" [InputItem "hello"]);
    reflexivity.
Defined.

Lemma undecodable_backend_frame_ends_session_witness :
  backend_frame "hello" idle = (Raise JSONDecodeError, idle)
  /\ exists w', loop_body "input_mic" (JStr "hello") idle = (Ok tt, w').
Proof.
  apply (undecodable_backend_frame_ends_session "hello" idle).
  vm_compute. reflexivity.
Defined.

Lemma string_frame_is_taken_as_user_text_witness :
  exists l,
    backend_frame (MiniJson.q "hello") idle = (Ok tt, log l idle)
    /\ backend_sends l
       = [JObj [("type", JStr "conversation.item.create");
                ("item",
                 JObj [("id", JStr "text_input");
                       ("type", JStr "message");
                       ("role", JStr "user");
                       ("content", JArr [JObj [("type", JStr "input_text");
                                               ("text", JStr "hello")]])])];
          JObj [("type", JStr "response.create");
                ("response", JObj [("modalities", JArr [JStr "text"]);
                                   ("instructions",
                                    JStr "Please respond concisely.")])]]
    /\ sink_writes l = [].
Proof.
  apply (string_frame_is_taken_as_user_text (MiniJson.q "hello") "hello" idle);
    vm_compute; reflexivity.
Defined.

End MoreConcrete.

(** * What goes on the wire *)

Section WireFacts.

Context {rt : PyRuntime}.

Lemma swf_refl (w : world) : stays_well_formed w w.
Proof. intro H. exact H. Qed.

Lemma swf_trans (a b c : world) :
  stays_well_formed a b -> stays_well_formed b c -> stays_well_formed a c.
Proof. intros H1 H2 Ha. exact (H2 (H1 Ha)). Qed.

Lemma swf_emit (x : effect) :
  (forall ev, x = ModelSend ev -> is_dict ev = true) ->
  preserves stays_well_formed (emit x).
Proof.
  intros Hx w (Hout & Hsends). split; [exact Hout|].
  simpl. rewrite backend_sends_app. apply Forall_app. split; [exact Hsends|].
  destruct x; simpl; try constructor; [apply Hx; reflexivity | constructor].
Qed.

Lemma swf_print (label : string) (v : json) :
  preserves stays_well_formed (print label v).
Proof. apply swf_emit. discriminate. Qed.

Lemma swf_sink (chunk : json) :
  preserves stays_well_formed (send_output_chunk chunk).
Proof. apply swf_emit. discriminate. Qed.

Lemma swf_sleep (ms : nat) : preserves stays_well_formed (sleep ms).
Proof. apply swf_emit. discriminate. Qed.

Lemma swf_send (ev : json) :
  is_dict ev = true -> preserves stays_well_formed (model_send ev).
Proof. intro Hd. apply swf_emit. intros ev' Heq. congruence. Qed.

Lemma swf_future (f : option json) :
  preserves stays_well_formed (set_future f).
Proof. intros w H. exact H. Qed.

Lemma swf_log (l : list effect) (w : world) :
  Forall (fun ev => is_dict ev = true) (backend_sends l) ->
  stays_well_formed w (log l w).
Proof.
  intros Hl (Hout & Hsends). split; [exact Hout|].
  simpl. rewrite backend_sends_app. apply Forall_app. split; assumption.
Qed.

Lemma swf_on_input_mic (data : json) :
  preserves stays_well_formed (on_input_mic data).
Proof.
  intro w. unfold on_input_mic, bind, lift, print, model_send.
  destruct (getitem data "type") as [t|e] eqn:Ht; [|apply swf_refl].
  assert (Hd : is_dict data = true)
    by (destruct data; try discriminate Ht; reflexivity).
  destruct (eq_str t "conversation.item.create"); unfold ret;
    rewrite ?emit_log, ?log_log; apply swf_log; simpl;
    repeat constructor; exact Hd.
Qed.

Lemma swf_on_text (raw : json) :
  preserves stays_well_formed (on_text (text_input_item raw)).
Proof.
  intro w. unfold on_text, bind, print, model_send, sleep.
  rewrite !emit_log, !log_log. apply swf_log. simpl.
  repeat constructor.
Qed.

Lemma swf_on_output_speaker (data : json) :
  preserves stays_well_formed (on_output_speaker data).
Proof.
  apply (preserves_on_output_speaker stays_well_formed swf_refl swf_trans).
  - apply swf_print.
  - apply swf_sink.
  - apply swf_future.
Qed.

Lemma swf_on_tool_outputs (cid : json) (output : string) :
  preserves stays_well_formed (on_tool_outputs (tool_result cid output)).
Proof.
  intro w.
  destruct (on_tool_outputs_result cid output w) as (sink & Hrun & Hsink).
  rewrite Hrun. apply swf_log.
  destruct Hsink as [[-> _] | [-> _]]; simpl; repeat constructor.
Qed.

Lemma loop_body_raw_text (stream_key s : string) (w : world) :
  json_loads s = None ->
  loop_body stream_key (JStr s) w = (Ok tt, log (text_input_effects s) w).
Proof.
  intro Hraw.
  unfold loop_body, decode_item, try_except, bind, lift, loads_value.
  rewrite Hraw.
  change (on_text (text_input_item (JStr s))
            (log [Print "Received raw text input:" (JStr s)] w)
          = (Ok tt, log (text_input_effects s) w)).
  unfold on_text, bind, print, model_send, sleep.
  rewrite !emit_log, !log_log. reflexivity.
Qed.

Lemma loop_body_backend_json (s : string) (d : json) (w : world) :
  json_loads s = Some d ->
  loop_body "output_speaker" (JStr s) w = on_output_speaker d w.
Proof.
  intro Hl. unfold loop_body, decode_item, try_except, bind, lift, loads_value.
  rewrite Hl. reflexivity.
Qed.

(** The loop body on what the input and the backend deliver. *)
Lemma swf_loop_body (stream_key : string) (data_raw : json) :
  stream_key = "input_mic" \/ stream_key = "output_speaker" ->
  preserves stays_well_formed (loop_body stream_key data_raw).
Proof.
  intros Hkey w.
  assert (Htext : forall s, json_loads s = None ->
             stays_well_formed w (snd (loop_body stream_key (JStr s) w))).
  { intros s Hraw. rewrite (loop_body_raw_text stream_key s w Hraw).
    apply swf_log. simpl. repeat constructor. }
  destruct Hkey as [-> | ->].
  - destruct data_raw as [ | b | z | f | s | items | fields ];
      try (match goal with
           | |- stays_well_formed _ (snd (loop_body _ ?d _)) =>
               exact (swf_on_input_mic d w)
           end).
    destruct (json_loads s) as [d|] eqn:Hl; [|apply Htext; exact Hl].
    rewrite (loop_body_input_json s d w Hl). apply swf_on_input_mic.
  - destruct data_raw as [ | b | z | f | s | items | fields ];
      try (match goal with
           | |- stays_well_formed _ (snd (loop_body _ ?d _)) =>
               exact (swf_on_output_speaker d w)
           end).
    destruct (json_loads s) as [d|] eqn:Hl; [|apply Htext; exact Hl].
    rewrite (loop_body_backend_json s d w Hl). apply swf_on_output_speaker.
Qed.

Lemma swf_iterator (c : completed) :
  preserves stays_well_formed (output_iterator c).
Proof.
  intros w Hwf. unfold output_iterator.
  destruct (outbox w) eqn:Hout; [exact Hwf|].
  pose proof (preserves_output_iterator_step same_trace
                (fun w0 => eq_refl)
                (fun a b c0 (H1 : same_trace a b) (H2 : same_trace b c0) =>
                   eq_trans H2 H1)
                (fun f w0 => eq_refl) (fun ts w0 => eq_refl) c w) as Htrace.
  unfold same_trace in Htrace.
  destruct (output_iterator_step c w) as [[[ev|]|e] w'] eqn:Hstep;
    simpl in Htrace |- *.
  - split.
    + simpl. intros ev' Hev'. injection Hev' as <-.
      exact (output_iterator_step_yields c w w' ev Hstep).
    + simpl. rewrite Htrace. exact (proj2 Hwf).
  - pose proof (preserves_output_iterator_step
                  (fun a b => outbox b = outbox a)
                  (fun w0 => eq_refl)
                  (fun a b c0 H1 H2 => eq_trans H2 H1)
                  (fun f w0 => eq_refl) (fun ts w0 => eq_refl) c w) as Hbox.
    rewrite Hstep in Hbox. simpl in Hbox.
    split.
    + intros ev' Hev'. rewrite Hbox, Hout in Hev'. discriminate Hev'.
    + rewrite Htrace. exact (proj2 Hwf).
  - split.
    + simpl. intros ev' Hev'. discriminate Hev'.
    + simpl. rewrite Htrace. exact (proj2 Hwf).
Qed.

Lemma swf_occur (o : occurrence) : preserves stays_well_formed (occur o).
Proof.
  destruct o as [s | d | | c]; simpl.
  - apply swf_loop_body. left. reflexivity.
  - apply swf_loop_body. right. reflexivity.
  - intros w Hwf. unfold bind, get_world.
    destruct (outbox w) as [[ev|e]|] eqn:Hout; [| | exact Hwf].
    + destruct (proj1 Hwf ev Hout) as (cid & output & ->).
      simpl. unfold lift.
      change (loop_body "tool_outputs" (tool_result cid output)
                (snd (set_outbox None w)))
        with (on_tool_outputs (tool_result cid output)
                (snd (set_outbox None w))).
      apply swf_on_tool_outputs.
      split; [simpl; discriminate | exact (proj2 Hwf)].
    + simpl. split; [simpl; discriminate | exact (proj2 Hwf)].
  - apply swf_iterator.
Qed.

Lemma swf_merged_loop (schedule : list occurrence) :
  preserves stays_well_formed (merged_loop schedule).
Proof.
  induction schedule as [|o rest IH]; simpl.
  - apply (preserves_ret _ swf_refl).
  - apply (preserves_bind _ swf_trans); [apply swf_occur | intro; exact IH].
Qed.

(** X25: every event [aconnect] hands to [model_send], in any session,
    is a dict; so every frame [send_event] puts on the socket is the
    [json.dumps] of a dict, never raw text. *)
Theorem every_frame_is_a_serialized_dict (agent : OpenAIVoiceReactAgent)
    (schedule : list occurrence) :
  Forall (fun ev => is_dict ev = true /\ send_event ev = JStr (json_dumps ev))
         (backend_sends (trace (snd (aconnect agent schedule)))).
Proof.
  unfold aconnect, bind, model_send. rewrite emit_log.
  assert (Hwf : well_formed
                  (snd (merged_loop schedule
                     (log [ModelSend (session_update agent)]
                        (initial_world agent))))).
  { apply swf_merged_loop. split.
    - simpl. discriminate.
    - simpl. repeat constructor. }
  destruct Hwf as (_ & Hsends).
  eapply Forall_impl; [|exact Hsends].
  intros ev Hd. split; [exact Hd|].
  destruct ev; try discriminate Hd. reflexivity.
Qed.

End WireFacts.
